(** * electron-bar-graph: the renderer process ([build/renderer.js])

    A shallow embedding of the input parser, the colour generators, the
    canvas renderer, the SVG exporter and the configuration loader of
    [renderer.js], with the properties its specification states.

    Conventions of the embedding.
    - A JavaScript string is a [string]: a sequence of code units below 256.
    - A JavaScript number is a [number]: NaN, the two infinities, or a finite
      binary64 value kept as the rational it denotes.  Every arithmetic
      operation rounds its exact result to binary64 (nearest, ties to even),
      as IEEE 754 prescribes.  Negative zero is identified with zero: the
      program only divides by positive numbers, so it cannot tell them apart.
    - Array lengths and loop counters are [nat]; they are below 2^32 in
      JavaScript, where every integer is a binary64 value, so their
      conversion to [number] is exact.
    - Code that can raise (a property read on [null], an array spread into
      more arguments than the engine takes) returns a [completion]; code
      that draws returns the list of canvas calls.  The number of arguments
      of a call is the one limit of the engine that is modelled; no bound on the
      length of a string or of an array is.
    - The built-in functions on strings, arrays and numbers ([split],
      [trim], [parseFloat], [map], [filter], [isNaN], [Math.max] of given
      arguments) are total functions: that they do not raise on a string or
      a number is a convention of the embedding, not a result of it.
    - The page is a parameter: the texts of the two inputs, the colour
      controls, the size of the canvas and what [fs] answers.  Console
      logging and the wiring of the event listeners are left out. *)

From Stdlib Require Import ZArith QArith Qround Qabs List Bool Ascii String Lia.
From Stdlib Require Import Qcanon Qpower Qfield DecimalString DecimalPos DecimalN.
Import ListNotations.

Open Scope string_scope.

(** ** JavaScript numbers *)

Module JS.

Inductive number : Type :=
| NaN
| PInf
| NInf
| Fin (q : Q).

(** Largest [e] with [2^e <= n/d], for positive [n] and [d]. *)
Definition floor_log2 (q : Q) : Z :=
  let n := Qnum q in
  let d := Zpos (Qden q) in
  let e0 := (Z.log2 n - Z.log2 d)%Z in
  if Qle_bool (Qpower 2 e0) q then e0 else (e0 - 1)%Z.

(** Nearest integer, ties to the even one. *)
Definition round_half_even (q : Q) : Z :=
  let f := Qfloor q in
  let r := (q - inject_Z f)%Q in
  match Qcompare r (1 # 2) with
  | Lt => f
  | Gt => (f + 1)%Z
  | Eq => if Z.even f then f else (f + 1)%Z
  end.

(** Rounding of a positive magnitude to 53 bits of significand, with the
    least exponent -1074 of the subnormal numbers. *)
Definition roundMagnitude (a : Q) : Q :=
  let E := Z.max (floor_log2 a - 52) (-1074) in
  let m := round_half_even (a / Qpower 2 E) in
  Qred (inject_Z m * Qpower 2 E).

(** Rounding of an exact result to binary64 (nearest, ties to even);
    overflow to an infinity from 2^1024 on. *)
Definition round64 (q : Q) : number :=
  let q := Qred q in
  match Qcompare q 0 with
  | Eq => Fin 0
  | c =>
      let r := roundMagnitude (Qabs q) in
      if Qle_bool (Qpower 2 1024) r
      then match c with Lt => NInf | _ => PInf end
      else match c with Lt => Fin (Qred (- r)) | _ => Fin r end
  end.

(** An integer below 2^53 in magnitude is a binary64 value. *)
Definition ofZ (z : Z) : number := Fin (inject_Z z).
Definition ofNat (n : nat) : number := ofZ (Z.of_nat n).

Definition isZero (q : Q) : bool := Qeq_bool q 0.
Definition isNeg (q : Q) : bool := negb (Qle_bool 0 q).

Definition neg (x : number) : number :=
  match x with
  | NaN => NaN
  | PInf => NInf
  | NInf => PInf
  | Fin q => Fin (Qred (- q))
  end.

Definition add (x y : number) : number :=
  match x, y with
  | NaN, _ | _, NaN => NaN
  | PInf, NInf | NInf, PInf => NaN
  | PInf, _ | _, PInf => PInf
  | NInf, _ | _, NInf => NInf
  | Fin a, Fin b => round64 (a + b)
  end.

Definition sub (x y : number) : number := add x (neg y).

Definition mul (x y : number) : number :=
  match x, y with
  | NaN, _ | _, NaN => NaN
  | Fin a, Fin b => round64 (a * b)
  | Fin a, PInf | PInf, Fin a =>
      if isZero a then NaN else if isNeg a then NInf else PInf
  | Fin a, NInf | NInf, Fin a =>
      if isZero a then NaN else if isNeg a then PInf else NInf
  | PInf, PInf | NInf, NInf => PInf
  | PInf, NInf | NInf, PInf => NInf
  end.

Definition div (x y : number) : number :=
  match x, y with
  | NaN, _ | _, NaN => NaN
  | Fin a, Fin b =>
      if isZero b
      then if isZero a then NaN else if isNeg a then NInf else PInf
      else round64 (a / b)
  | Fin _, PInf | Fin _, NInf => Fin 0
  | PInf, Fin b => if isNeg b then NInf else PInf
  | NInf, Fin b => if isNeg b then PInf else NInf
  | _, _ => NaN
  end.

(** [x > y] and [x <= y]; every comparison with NaN is false. *)
Definition gt (x y : number) : bool :=
  match x, y with
  | NaN, _ | _, NaN => false
  | PInf, PInf => false
  | PInf, _ => true
  | _, PInf => false
  | NInf, _ => false
  | Fin _, NInf => true
  | Fin a, Fin b => negb (Qle_bool a b)
  end.

Definition le (x y : number) : bool :=
  match x, y with
  | NaN, _ | _, NaN => false
  | _, _ => negb (gt x y)
  end.

(** [x < y] *)
Definition lt (x y : number) : bool := gt y x.

Definition isNaN (x : number) : bool :=
  match x with NaN => true | _ => false end.

(** [Math.max(x, y)]. *)
Definition max2 (x y : number) : number :=
  match x, y with
  | NaN, _ | _, NaN => NaN
  | _, _ => if gt y x then y else x
  end.

(** [Math.max] of the arguments [xs]: minus infinity for no argument. *)
Definition Math_max (xs : list number) : number := fold_left max2 xs NInf.

(** [Math.round]: the nearest integer, ties towards plus infinity. *)
Definition Math_round (x : number) : number :=
  match x with
  | Fin q => ofZ (Qfloor (q + (1 # 2)))
  | _ => x
  end.

End JS.

(** ** JavaScript strings *)

Module Str.

Definition isWhiteSpace (c : ascii) : bool :=
  let n := nat_of_ascii c in
  ((9 <=? n) && (n <=? 13) || (n =? 32) || (n =? 160))%nat.

Definition isDigit (c : ascii) : bool :=
  let n := nat_of_ascii c in ((48 <=? n) && (n <=? 57))%nat.

Definition isHexDigit (c : ascii) : bool :=
  let n := nat_of_ascii c in
  (isDigit c || (97 <=? n) && (n <=? 102) || (65 <=? n) && (n <=? 70))%nat.

Definition digitValue (c : ascii) : Z := Z.of_nat (nat_of_ascii c) - 48.

Definition hexValue (c : ascii) : Z :=
  let n := Z.of_nat (nat_of_ascii c) in
  if isDigit c then n - 48
  else if (97 <=? n)%Z then n - 87 else n - 55.

Fixpoint takeWhile (p : ascii -> bool) (s : string) : string :=
  match s with
  | String c r => if p c then String c (takeWhile p r) else ""
  | "" => ""
  end.

Fixpoint dropWhile (p : ascii -> bool) (s : string) : string :=
  match s with
  | String c r => if p c then dropWhile p r else s
  | "" => ""
  end.

Fixpoint forallb (p : ascii -> bool) (s : string) : bool :=
  match s with
  | String c r => p c && forallb p r
  | "" => true
  end.

Definition isEmpty (s : string) : bool :=
  match s with "" => true | _ => false end.

Definition trimStart (s : string) : string := dropWhile isWhiteSpace s.

Fixpoint trimEnd (s : string) : string :=
  match s with
  | "" => ""
  | String c r =>
      let r' := trimEnd r in
      if isWhiteSpace c && isEmpty r' then "" else String c r'
  end.

(** [s.trim()] *)
Definition trim (s : string) : string := trimEnd (trimStart s).

(** [s.split(",")]: the tokens between the commas, empty ones included;
    the empty string has one (empty) token. *)
Fixpoint split (s : string) : list string :=
  match s with
  | "" => [""]
  | String c r =>
      if Ascii.eqb c ","
      then "" :: split r
      else match split r with
           | t :: ts => String c t :: ts
           | [] => [String c ""]
           end
  end.

(** [s.startsWith(p)], with the rest of [s] after [p]. *)
Fixpoint stripPrefix (p s : string) : option string :=
  match p, s with
  | "", _ => Some s
  | String a p', String b s' =>
      if Ascii.eqb a b then stripPrefix p' s' else None
  | String _ _, "" => None
  end.

Fixpoint repeat (c : ascii) (n : nat) : string :=
  match n with
  | O => ""
  | S n' => String c (repeat c n')
  end.

Fixpoint digitsValue (acc : Z) (s : string) : Z :=
  match s with
  | "" => acc
  | String c r => digitsValue (10 * acc + digitValue c) r
  end.

Fixpoint hexDigitsValue (acc : Z) (s : string) : Z :=
  match s with
  | "" => acc
  | String c r => hexDigitsValue (16 * acc + hexValue c) r
  end.

(** Decimal digits of a natural number given as a [Z]. *)
Definition ofDigits (z : Z) : string :=
  NilZero.string_of_uint (N.to_uint (Z.to_N z)).

End Str.

(** ** Conversions between numbers and strings *)

Module Conv.
Import JS.

(** Largest [t] with [10^t <= q], for positive [q]: the estimate from the
    binary logarithm is off by one at most. *)
Definition floor_log10 (q : Q) : Z :=
  let est := (floor_log2 q * 30103 / 100000)%Z in
  if Qle_bool (Qpower 10 (est + 1)) q then (est + 1)%Z
  else if Qle_bool (Qpower 10 est) q then est
  else (est - 1)%Z.

Definition roundsTo (q : Q) (v : Q) : bool :=
  match round64 v with
  | Fin r => Qeq_bool r q
  | _ => false
  end.

(** The candidates with [k] digits for the shortest decimal that reads back
    as [q]: [Some s] when [s * 10^(n-k)] rounds to [q]. *)
Definition digitsAt (q : Q) (n : Z) (k : Z) : option Z :=
  let p := Qpower 10 (n - k) in
  let lo := Qfloor (q / p) in
  let hi := (lo + 1)%Z in
  let okLo := roundsTo q (inject_Z lo * p) in
  let okHi := roundsTo q (inject_Z hi * p) in
  match okLo, okHi with
  | true, true =>
      match Qcompare (q - inject_Z lo * p) (inject_Z hi * p - q) with
      | Lt => Some lo
      | Gt => Some hi
      | Eq => if Z.even lo then Some lo else Some hi
      end
  | true, false => Some lo
  | false, true => Some hi
  | false, false => None
  end.

Fixpoint shortest (q : Q) (n : Z) (k : Z) (fuel : nat) : Z * Z * Z :=
  match fuel with
  | O => (Qfloor (q / Qpower 10 (n - k)), k, n)
  | S fuel' =>
      match digitsAt q n k with
      | Some s =>
          if (s =? 10 ^ k)%Z then ((10 ^ (k - 1))%Z, k, (n + 1)%Z)
          else (s, k, n)
      | None => shortest q n (k + 1) fuel'
      end
  end.

(** [Number::toString] of a positive finite number. *)
Definition positiveToString (q : Q) : string :=
  let '(s, k, n) := shortest q (floor_log10 q + 1) 1 17 in
  let ds := Str.ofDigits s in
  let kn := Z.to_nat k in
  if ((k <=? n) && (n <=? 21))%Z then
    ds ++ Str.repeat "0" (Z.to_nat (n - k))
  else if ((0 <? n) && (n <=? 21))%Z then
    substring 0 (Z.to_nat n) ds ++ "." ++
    substring (Z.to_nat n) (kn - Z.to_nat n) ds
  else if ((-6 <? n) && (n <=? 0))%Z then
    "0." ++ Str.repeat "0" (Z.to_nat (- n)) ++ ds
  else
    let e := (n - 1)%Z in
    let es := (if (e <? 0)%Z then "-" else "+") ++ Str.ofDigits (Z.abs e) in
    if (k =? 1)%Z then ds ++ "e" ++ es
    else substring 0 1 ds ++ "." ++ substring 1 (kn - 1) ds ++ "e" ++ es.

(** The string a number takes in a template literal. *)
Definition Number_toString (x : number) : string :=
  match x with
  | NaN => "NaN"
  | PInf => "Infinity"
  | NInf => "-Infinity"
  | Fin q =>
      match Qcompare q 0 with
      | Eq => "0"
      | Gt => positiveToString q
      | Lt => "-" ++ positiveToString (Qabs q)
      end
  end.

(** [x.toFixed(1)] *)
Definition toFixed1 (x : number) : string :=
  match x with
  | Fin q =>
      if Qle_bool (Qpower 10 21) (Qabs q) then Number_toString x
      else
        let n := Qfloor (Qabs q * 10 + (1 # 2)) in
        let m := Str.ofDigits n in
        let m := if (String.length m <=? 1)%nat then "0" ++ m else m in
        let k := String.length m in
        (if isNeg q then "-" else "") ++
        substring 0 (k - 1) m ++ "." ++ substring (k - 1) 1 m
  | _ => Number_toString x
  end.

(** The exponent part of a decimal literal, if one is there: [e] or [E], a
    sign or none, and at least one digit. *)
Definition exponentPart (s : string) : Z :=
  match s with
  | String c r =>
      if Ascii.eqb c "e" || Ascii.eqb c "E" then
        let '(sgn, r') :=
          match r with
          | String "+" t => (1%Z, t)
          | String "-" t => ((-1)%Z, t)
          | _ => (1%Z, r)
          end in
        let ds := Str.takeWhile Str.isDigit r' in
        if Str.isEmpty ds then 0%Z else (sgn * Str.digitsValue 0 ds)%Z
      else 0%Z
  | "" => 0%Z
  end.

(** [parseFloat(s)]: the longest prefix of [s], after leading white space,
    that is a decimal literal; NaN when there is none. *)
Definition parseFloat (s : string) : number :=
  let s := Str.trimStart s in
  let '(negative, s) :=
    match s with
    | String "+" t => (false, t)
    | String "-" t => (true, t)
    | _ => (false, s)
    end in
  let signed (x : number) := if negative then neg x else x in
  match Str.stripPrefix "Infinity" s with
  | Some _ => signed PInf
  | None =>
      let ip := Str.takeWhile Str.isDigit s in
      let s1 := Str.dropWhile Str.isDigit s in
      let '(fp, s2) :=
        match s1 with
        | String "." t =>
            (Str.takeWhile Str.isDigit t, Str.dropWhile Str.isDigit t)
        | _ => ("", s1)
        end in
      if Str.isEmpty ip && Str.isEmpty fp then NaN
      else
        let mant := Str.digitsValue 0 (ip ++ fp) in
        let e := (exponentPart s2 - Z.of_nat (String.length fp))%Z in
        signed (round64 (inject_Z mant * Qpower 10 e))
  end.

(** [parseInt(s, 16)] on a string of hexadecimal digits. *)
Definition parseInt16 (s : string) : number :=
  let ds := Str.takeWhile Str.isHexDigit s in
  if Str.isEmpty ds then NaN else ofZ (Str.hexDigitsValue 0 ds).

End Conv.

(** ** Control flow: completions and counted loops *)

Inductive completion (A : Type) : Type :=
| Normal (a : A)
| Throw (error : string).
Arguments Normal {A} a.
Arguments Throw {A} error.

Definition bind {A B} (c : completion A) (k : A -> completion B)
  : completion B :=
  match c with
  | Normal a => k a
  | Throw e => Throw e
  end.

Notation "x <- c ;; k" := (bind c (fun x => k))
  (at level 61, c at next level, right associativity).

(** [try { body } catch (e) { handler(e) }] *)
Definition tryCatch {A} (body : completion A) (handler : string -> A) : A :=
  match body with
  | Normal a => a
  | Throw e => handler e
  end.

(** [for (let i = from; i < from + n; i++) st = body(i, st)] *)
Fixpoint forFrom {St : Type} (from n : nat) (body : nat -> St -> St) (st : St)
  : St :=
  match n with
  | O => st
  | S n' => forFrom (S from) n' body (body from st)
  end.

Definition forLoop {St : Type} (n : nat) (body : nat -> St -> St) (st : St)
  : St :=
  forFrom 0 n body st.

(** The same loop with a body that can raise. *)
Fixpoint forFromM {St : Type} (from n : nat)
    (body : nat -> St -> completion St) (st : St) : completion St :=
  match n with
  | O => Normal st
  | S n' => st' <- body from st ;; forFromM (S from) n' body st'
  end.

Definition forLoopM {St : Type} (n : nat)
    (body : nat -> St -> completion St) (st : St) : completion St :=
  forFromM 0 n body st.

(** An array element, or a variable, that may be [undefined]. *)
Abbreviation undefined := None (only parsing).

Definition typeError : string := "TypeError".
Definition rangeError : string := "RangeError".

(** [f(...a)]: every element of the array [a] is passed as an argument of
    its own.  An engine accepts only so many arguments in one call and
    raises a RangeError beyond that; how many is the engine's affair (in V8
    it depends on the stack that is left), so the bound is a parameter,
    [argumentLimit], of every function that spreads an array. *)
Definition spread {A B : Type} (argumentLimit : nat) (f : list A -> B)
    (a : list A) : completion B :=
  if (List.length a <=? argumentLimit)%nat then Normal (f a)
  else Throw rangeError.

(** ** The renderer *)

Import JS Conv.

(** *** Configuration ([loadConfiguration], lines 29-68) *)

(** The three flags on [window]; [undefined] until assigned. *)
Record window : Type := {
  EMACS_INTEGRATION : option bool;
  DEBUG : option bool;
  VERBOSE : option bool
}.

(** What the two calls on [fs] answer for [config.h]. *)
Record fileSystem : Type := {
  existsSync : completion bool;
  readFileSync : completion string
}.

(** [content.match(/#define NAME\s+(\d+)/)]: the digits captured by the
    leftmost match, if there is one. *)
Fixpoint matchDefine (name : string) (content : string) : option string :=
  let here :=
    match Str.stripPrefix ("#define " ++ name) content with
    | Some rest =>
        let ws := Str.takeWhile Str.isWhiteSpace rest in
        let ds := Str.takeWhile Str.isDigit
                    (Str.dropWhile Str.isWhiteSpace rest) in
        if Str.isEmpty ws || Str.isEmpty ds then None else Some ds
    | None => None
    end in
  match here with
  | Some ds => Some ds
  | None =>
      match content with
      | String _ rest => matchDefine name rest
      | "" => None
      end
  end.

Definition defaultConfiguration : window :=
  {| EMACS_INTEGRATION := Some true;
     DEBUG := Some false;
     VERBOSE := Some false |}.

Definition loadConfiguration (fs : fileSystem) (w : window) : window :=
  tryCatch
    (present <- existsSync fs ;;
     if (present : bool) then
       configContent <- readFileSync fs ;;
       let w :=
         match matchDefine "EMACS_INTEGRATION" configContent with
         | Some d => {| EMACS_INTEGRATION := Some (String.eqb d "1");
                        DEBUG := DEBUG w; VERBOSE := VERBOSE w |}
         | None => w
         end in
       let w :=
         match matchDefine "DEBUG" configContent with
         | Some d => {| EMACS_INTEGRATION := EMACS_INTEGRATION w;
                        DEBUG := Some (String.eqb d "1");
                        VERBOSE := VERBOSE w |}
         | None => w
         end in
       let w :=
         match matchDefine "VERBOSE" configContent with
         | Some d => {| EMACS_INTEGRATION := EMACS_INTEGRATION w;
                        DEBUG := DEBUG w;
                        VERBOSE := Some (String.eqb d "1") |}
         | None => w
         end in
       Normal w
     else Normal defaultConfiguration)
    (fun _ => defaultConfiguration).

(** What a flag is after [config.h] was read: the parsed value when its
    [#define] line matches, the value it had otherwise. *)
Definition flagAfter (name content : string) (before : option bool)
  : option bool :=
  match matchDefine name content with
  | Some digits => Some (String.eqb digits "1")
  | None => before
  end.

(** The window as the page starts: no flag assigned yet. *)
Definition freshWindow : window :=
  {| EMACS_INTEGRATION := undefined; DEBUG := undefined; VERBOSE := undefined |}.

(** *** Colours (lines 127-192) *)

(** The colour controls of the page: [colorMode.value],
    [primaryColor.value], [secondaryColor.value], [customColors.value]. *)
Record controls : Type := {
  colorMode : string;
  primaryColor : string;
  secondaryColor : string;
  customColors : string
}.

Record rgb : Type := { r : number; g : number; b : number }.

(** [/^#?([a-f\d]{2})([a-f\d]{2})([a-f\d]{2})$/i.exec(hex)], then
    [parseInt] of each group in base 16; [null] when there is no match. *)
Definition hexToRgb (hex : string) : option rgb :=
  let body := match hex with String "#" t => t | _ => hex end in
  if (String.length body =? 6)%nat && Str.forallb Str.isHexDigit body
  then Some {| r := parseInt16 (substring 0 2 body);
               g := parseInt16 (substring 2 2 body);
               b := parseInt16 (substring 4 2 body) |}
  else None.

(** Reading a channel of the result of [hexToRgb]: a TypeError on [null]. *)
Definition channel (f : rgb -> number) (c : option rgb) : completion number :=
  match c with
  | Some v => Normal (f v)
  | None => Throw typeError
  end.

(** [steps === 1 ? 0 : i / (steps - 1)] *)
Definition gradientRatio (steps i : nat) : number :=
  if (steps =? 1)%nat then ofZ 0
  else div (ofNat i) (sub (ofNat steps) (ofZ 1)).

(** [Math.round(c1.x + (c2.x - c1.x) * ratio)] *)
Definition interpolate (f : rgb -> number) (c1 c2 : option rgb)
    (ratio : number) : completion number :=
  x1 <- channel f c1 ;;
  x2 <- channel f c2 ;;
  x1' <- channel f c1 ;;
  Normal (Math_round (add x1 (mul (sub x2 x1') ratio))).

(** A channel of step [i] when both colours were read: line 167, 168 or
    169 without the reads that can raise. *)
Definition channelAt (f : rgb -> number) (c1 c2 : rgb) (steps i : nat)
  : number :=
  Math_round (add (f c1) (mul (sub (f c2) (f c1)) (gradientRatio steps i))).

(** The template [rgb(${r}, ${g}, ${b})] *)
Definition rgbString (r g b : number) : string :=
  "rgb(" ++ Number_toString r ++ ", " ++ Number_toString g ++ ", "
         ++ Number_toString b ++ ")".

Definition generateGradientColors (color1 color2 : string) (steps : nat)
  : completion (list (option string)) :=
  let c1 := hexToRgb color1 in
  let c2 := hexToRgb color2 in
  forLoopM steps
    (fun i colors =>
       let ratio := gradientRatio steps i in
       r <- interpolate r c1 c2 ratio ;;
       g <- interpolate g c1 c2 ratio ;;
       b <- interpolate b c1 c2 ratio ;;
       Normal (colors ++ [Some (rgbString r g b)])%list)
    [].

(** The template [hsl(${hue}, 70%, 50%)] *)
Definition hslString (hue : number) : string :=
  "hsl(" ++ Number_toString hue ++ ", 70%, 50%)".

(** [(i * 360) / count] *)
Definition rainbowHue (count i : nat) : number :=
  div (mul (ofNat i) (ofZ 360)) (ofNat count).

Definition generateRainbowColors (count : nat) : list (option string) :=
  forLoop count
    (fun i colors => (colors ++ [Some (hslString (rainbowHue count i))])%list)
    [].

(** [list[i % list.length]]: the remainder by zero is NaN, and the element
    at NaN is [undefined]. *)
Definition atModulo (colorList : list string) (i : nat) : option string :=
  match List.length colorList with
  | O => undefined
  | S _ => nth_error colorList (i mod List.length colorList)
  end.

Definition generateColors (ui : controls) (count : nat)
  : completion (list (option string)) :=
  let mode := colorMode ui in
  let primary := primaryColor ui in
  let secondary := secondaryColor ui in
  if String.eqb mode "single" then
    Normal (repeat (Some primary) count)
  else if String.eqb mode "gradient" then
    generateGradientColors primary secondary count
  else if String.eqb mode "rainbow" then
    Normal (generateRainbowColors count)
  else if String.eqb mode "custom" then
    let customColorList := map Str.trim (Str.split (customColors ui)) in
    if (count <=? List.length customColorList)%nat then
      Normal (map Some (firstn count customColorList))
    else
      Normal (forLoop count
                (fun i colors => (colors ++ [atModulo customColorList i])%list)
                [])
  else
    Normal (repeat (Some primary) count).

(** *** The input parser ([parseInputValues], lines 194-232) *)

Record parsed : Type := {
  dataValues : list number;
  labels : list string;
  hasError : bool
}.

Definition mismatchMessage : string :=
  "Error: Number of values must match the number of labels.".
Definition invalidMessage : string :=
  "Invalid input. Please ensure all values are numbers.".

(** Lines 204-208: split, trim, [parseFloat], drop NaN, clamp at zero. *)
Definition parseValues (valueText : string) : list number :=
  let dataValues :=
    filter (fun val => negb (isNaN val))
      (map (fun x => parseFloat (Str.trim x)) (Str.split valueText)) in
  map (fun val => max2 (ofZ 0) val) dataValues.

(** Line 210 *)
Definition parseLabels (labelText : string) : list string :=
  map Str.trim (Str.split labelText).

Definition errorResult : parsed :=
  {| dataValues := []; labels := []; hasError := true |}.

(** Lines 203-220, the [try] block: the result it returns, or none when
    control leaves it at its end, with the text of the error message box.
    No call in it raises on a string, so each step is a [Normal]
    completion. *)
Definition parseInputValues_try (valueText labelText : string)
  : completion (list number * list string * option parsed * string) :=
  dataValues <- Normal (parseValues valueText) ;;
  labels <- Normal (parseLabels labelText) ;;
  if negb (List.length dataValues =? List.length labels)%nat then
    Normal (dataValues, labels, Some errorResult, mismatchMessage)
  else
    Normal (dataValues, labels, None, "").

(** The result, with the text left in the error message box (cleared at
    line 196, set by [displayError] after that). *)
Definition parseInputValues (valueText labelText : string)
  : parsed * string :=
  tryCatch
    (out <- parseInputValues_try valueText labelText ;;
     let '(dataValues, labels, returned, message) := out in
     match returned with
     | Some result => Normal (result, message)
     | None =>
         Normal ({| dataValues := dataValues; labels := labels;
                    hasError := false |}, message)
     end)
    (fun _ => (errorResult, invalidMessage)).

(** *** The canvas renderer ([drawGraph], lines 234-322) *)

(** [canvas.width] and [canvas.height]: unsigned integers. *)
Record canvasSize : Type := { width : Z; height : Z }.

Definition defaultCanvas : canvasSize := {| width := 760; height := 400 |}.

(** The calls and assignments made on the 2D context, in order. *)
Inductive canvasOp : Type :=
| clearRect (x y w h : number)
| fillRect (x y w h : number)
| fillText (text : string) (x y : number)
| set_fillStyle (style : option string)
| set_font (font : string)
| set_textAlign (align : string)
| set_textBaseline (baseline : string)
| set_strokeStyle (style : string)
| set_lineWidth (w : number)
| beginPath
| moveTo (x y : number)
| lineTo (x y : number)
| stroke.

Definition topPadding : number := ofZ 30.
Definition bottomPadding : number := ofZ 40.
Definition sidePadding : number := ofZ 30.
Definition barSpacing : number := ofZ 10.

(** Lines 249-261: the width of a bar, never zero or negative. *)
Definition drawGraph_barWidth (canvas : canvasSize) (numBars : nat) : number :=
  let graphWidth := sub (ofZ (width canvas)) (mul (ofZ 2) sidePadding) in
  let barWidth :=
    if (0 <? numBars)%nat then
      let availableWidthForBars :=
        sub graphWidth (mul (sub (ofNat numBars) (ofZ 1)) barSpacing) in
      div availableWidthForBars (ofNat numBars)
    else ofZ 0 in
  if le barWidth (ofZ 0) then ofZ 1 else barWidth.

(** [maxValue > 0 ? maxValue : 1], the divisor of the scale. *)
Definition scaleDivisor (maxValue : number) : number :=
  if gt maxValue (ofZ 0) then maxValue else ofZ 1.

(** Lines 250 and 263-264: the scale, from what [Math.max] returns for the
    values. *)
Definition drawGraph_scale (canvas : canvasSize) (dataValues : list number)
  : number :=
  let graphHeight :=
    sub (sub (ofZ (height canvas)) topPadding) bottomPadding in
  let maxValue := Math_max dataValues in
  div graphHeight (scaleDivisor maxValue).

(** [a[i]] as an operand of arithmetic: [undefined] converts to NaN. *)
Definition numberAt (a : list number) (i : nat) : number := nth i a NaN.

(** [a[i]] for an array of possibly undefined elements. *)
Definition elementAt {A} (a : list (option A)) (i : nat) : option A :=
  match nth_error a i with
  | Some v => v
  | None => undefined
  end.

(** Lines 272-295: the calls made for bar [i], drawn at [xOffset]. *)
Definition barCalls (canvas : canvasSize) (dataValues : list number)
    (labels : list string) (barColors : list (option string))
    (barWidth scale : number) (i : nat) (xOffset : number)
  : list canvasOp :=
  let H := ofZ (height canvas) in
  let value := numberAt dataValues i in
  let barHeight := mul value scale in
  [set_fillStyle (elementAt barColors i);
   fillRect xOffset (sub (sub H bottomPadding) barHeight) barWidth barHeight]
  ++ match nth_error labels i with
     | Some label =>
         [set_fillStyle (Some "black");
          set_font "12px Arial";
          set_textAlign "center";
          set_textBaseline "top";
          fillText label (add xOffset (div barWidth (ofZ 2)))
                   (add (sub H bottomPadding) (ofZ 5))]
     | None => []
     end.

(** Lines 271-297: one turn of the loop over the bars; the state is the
    calls made so far and [xOffset]. *)
Definition drawBar (canvas : canvasSize) (dataValues : list number)
    (labels : list string) (barColors : list (option string))
    (barWidth scale : number) (i : nat) (st : list canvasOp * number)
  : list canvasOp * number :=
  let '(ops, xOffset) := st in
  ((ops ++ barCalls canvas dataValues labels barColors barWidth scale
                    i xOffset)%list,
   add xOffset (add barWidth barSpacing)).

(** Lines 236-238: the canvas is cleared and painted white. *)
Definition drawBackground (canvas : canvasSize) : list canvasOp :=
  let W := ofZ (width canvas) in
  let H := ofZ (height canvas) in
  [clearRect (ofZ 0) (ofZ 0) W H;
   set_fillStyle (Some "white");
   fillRect (ofZ 0) (ofZ 0) W H].

(** Lines 299-321: the two axes and their two labels. *)
Definition drawAxes (canvas : canvasSize) (maxValue : number)
  : list canvasOp :=
  let W := ofZ (width canvas) in
  let H := ofZ (height canvas) in
  [set_strokeStyle "black";
   set_lineWidth (ofZ 2);
   beginPath;
   moveTo sidePadding (sub H bottomPadding);
   lineTo (sub W sidePadding) (sub H bottomPadding);
   stroke;
   beginPath;
   moveTo sidePadding topPadding;
   lineTo sidePadding (sub H bottomPadding);
   stroke;
   set_fillStyle (Some "black");
   set_font "12px Arial";
   set_textAlign "right";
   set_textBaseline "middle";
   fillText (toFixed1 maxValue) (sub sidePadding (ofZ 5)) topPadding;
   set_textAlign "center";
   set_textBaseline "top";
   fillText "0" (sub sidePadding (ofZ 5)) (add (sub H bottomPadding) (ofZ 5))].

(** The calls made on the context, and how the function completes.  The
    call [Math.max(...dataValues)] at line 263 spreads the values: it raises
    when there are more of them than the engine takes as arguments, after
    the background was painted and before anything else is drawn. *)
Definition drawGraph (argumentLimit : nat) (canvas : canvasSize)
    (ui : controls) (dataValues : list number) (labels : list string)
  : list canvasOp * completion unit :=
  let ops := drawBackground canvas in
  if (List.length dataValues =? 0)%nat then (ops, Normal tt)
  else
    let numBars := List.length dataValues in
    let barWidth := drawGraph_barWidth canvas numBars in
    match spread argumentLimit Math_max dataValues with
    | Throw e => (ops, Throw e)
    | Normal maxValue =>
        let scale := drawGraph_scale canvas dataValues in
        match generateColors ui (List.length dataValues) with
        | Throw e => (ops, Throw e)
        | Normal barColors =>
            let '(ops, _) :=
              forLoop (List.length dataValues)
                (drawBar canvas dataValues labels barColors barWidth scale)
                (ops, sidePadding) in
            ((ops ++ drawAxes canvas maxValue)%list, Normal tt)
        end
    end.

(** A call that is not a rectangle, a rectangle of height zero, or the
    rectangle that paints the background. *)
Definition flatBar (canvas : canvasSize) (op : canvasOp) : Prop :=
  match op with
  | fillRect x y w h =>
      h = ofZ 0 \/
      op = fillRect (ofZ 0) (ofZ 0) (ofZ (width canvas)) (ofZ (height canvas))
  | _ => True
  end.

(** *** The SVG exporter ([exportSVG], lines 366-432) *)

Definition svgWidth : number := ofZ 760.
Definition svgHeight : number := ofZ 400.

(** Lines 375-381: the width of a bar. *)
Definition exportSVG_barWidth (numBars : nat) : number :=
  let graphWidth := sub svgWidth (mul (ofZ 2) sidePadding) in
  let availableWidthForBars :=
    sub graphWidth (mul (sub (ofNat numBars) (ofZ 1)) barSpacing) in
  div availableWidthForBars (ofNat numBars).

(** Lines 376 and 382-383: the scale, from what [Math.max] returns for the
    values. *)
Definition exportSVG_scale (dataValues : list number) : number :=
  let graphHeight := sub (sub svgHeight topPadding) bottomPadding in
  let maxValue := Math_max dataValues in
  div graphHeight (scaleDivisor maxValue).

(** A number, or a colour that may be [undefined], in a template literal. *)
Definition num (x : number) : string := Number_toString x.
Definition str (v : option string) : string :=
  match v with
  | Some s => s
  | None => "undefined"
  end.

Definition quote : string := String (ascii_of_nat 34) EmptyString.

(** Line 400: the rectangle of a bar. *)
Definition svgRect (xOffset y barWidth barHeight : number)
    (fill : option string) : string :=
  "<rect x=" ++ quote ++ num xOffset ++ quote ++ " y=" ++ quote ++ num y ++ quote ++
  " width=" ++ quote ++ num barWidth ++ quote ++
  " height=" ++ quote ++ num barHeight ++ quote ++
  " fill=" ++ quote ++ str fill ++ quote ++ "/>".

(** Lines 404-406: the label under a bar. *)
Definition svgLabel (textX textY : number) (label : string) : string :=
  "<text x=" ++ quote ++ num textX ++ quote ++ " y=" ++ quote ++ num textY ++ quote ++
  " text-anchor=" ++ quote ++ "middle" ++ quote ++
  " font-family=" ++ quote ++ "Arial" ++ quote ++
  " font-size=" ++ quote ++ "12" ++ quote ++
  " fill=" ++ quote ++ "black" ++ quote ++ ">" ++ label ++ "</text>".

(** Lines 396-407: the elements written for bar [i], placed at [xOffset]. *)
Definition barElements (dataValues : list number) (labels : list string)
    (barColors : list (option string)) (barWidth scale : number)
    (i : nat) (xOffset : number) : string :=
  let value := numberAt dataValues i in
  let barHeight := mul value scale in
  let y := sub (sub svgHeight bottomPadding) barHeight in
  svgRect xOffset y barWidth barHeight (elementAt barColors i)
  ++ match nth_error labels i with
     | Some label =>
         let textX := add xOffset (div barWidth (ofZ 2)) in
         let textY := add (sub svgHeight bottomPadding) (ofZ 20) in
         svgLabel textX textY label
     | None => ""
     end.

(** Lines 395-410: one turn of the loop over the bars; the state is
    [svgContent] and [xOffset]. *)
Definition exportBar (dataValues : list number) (labels : list string)
    (barColors : list (option string)) (barWidth scale : number)
    (i : nat) (st : string * number) : string * number :=
  let '(svgContent, xOffset) := st in
  (svgContent ++ barElements dataValues labels barColors barWidth scale
                             i xOffset,
   add xOffset (add barWidth barSpacing)).

Definition svgLine (x1 y1 x2 y2 : number) : string :=
  "<line x1=" ++ quote ++ num x1 ++ quote ++ " y1=" ++ quote ++ num y1 ++ quote ++
  " x2=" ++ quote ++ num x2 ++ quote ++ " y2=" ++ quote ++ num y2 ++ quote ++
  " stroke=" ++ quote ++ "black" ++ quote ++
  " stroke-width=" ++ quote ++ "2" ++ quote ++ "/>".

Definition svgAxisLabel (x y : number) (text : string) : string :=
  "<text x=" ++ quote ++ num x ++ quote ++ " y=" ++ quote ++ num y ++ quote ++
  " text-anchor=" ++ quote ++ "end" ++ quote ++
  " dominant-baseline=" ++ quote ++ "middle" ++ quote ++
  " font-family=" ++ quote ++ "Arial" ++ quote ++
  " font-size=" ++ quote ++ "12" ++ quote ++
  " fill=" ++ quote ++ "black" ++ quote ++ ">" ++ text ++ "</text>".

(** Line 388: the opening tag. *)
Definition svgOpening : string :=
  "<svg width=" ++ quote ++ num svgWidth ++ quote ++
  " height=" ++ quote ++ num svgHeight ++ quote ++
  " xmlns=" ++ quote ++ "http://www.w3.org/2000/svg" ++ quote ++ ">".

(** Line 391: the white background. *)
Definition svgBackground : string :=
  "<rect width=" ++ quote ++ num svgWidth ++ quote ++
  " height=" ++ quote ++ num svgHeight ++ quote ++
  " fill=" ++ quote ++ "white" ++ quote ++ "/>".

(** The document handed to the download, or nothing when the function
    returns early.  The inputs are parsed again; [hasError] is not read.
    Line 382 spreads the values as line 263 does. *)
Definition exportSVG (argumentLimit : nat) (ui : controls)
    (valueText labelText : string) : completion (option string) :=
  let input := fst (parseInputValues valueText labelText) in
  let dataValues := dataValues input in
  let labels := labels input in
  if (List.length dataValues =? 0)%nat then Normal None
  else
    let numBars := List.length dataValues in
    let barWidth := exportSVG_barWidth numBars in
    maxValue <- spread argumentLimit Math_max dataValues ;;
    let scale := exportSVG_scale dataValues in
    barColors <- generateColors ui (List.length dataValues) ;;
    let svgContent := svgOpening in
    let svgContent := svgContent ++ svgBackground in
    let '(svgContent, _) :=
      forLoop (List.length dataValues)
        (exportBar dataValues labels barColors barWidth scale)
        (svgContent, sidePadding) in
    let svgContent :=
      svgContent ++
      svgLine sidePadding (sub svgHeight bottomPadding)
              (sub svgWidth sidePadding) (sub svgHeight bottomPadding) in
    let svgContent :=
      svgContent ++
      svgLine sidePadding topPadding
              sidePadding (sub svgHeight bottomPadding) in
    let svgContent :=
      svgContent ++
      svgAxisLabel (sub sidePadding (ofZ 10)) topPadding (toFixed1 maxValue) in
    let svgContent :=
      svgContent ++
      svgAxisLabel (sub sidePadding (ofZ 10)) (sub svgHeight bottomPadding) "0" in
    Normal (Some (svgContent ++ "</svg>")).

(** *** The rest of the page *)

(** Lines 73-77: whether the start of the page sets the display of the
    Emacs section to [block]; it does when the flag is truthy. *)
Definition emacsSectionShown (w : window) : bool :=
  match EMACS_INTEGRATION w with
  | Some true => true
  | _ => false
  end.

(** Line 459, the guard of [checkEmacsInstallation]: the check is refused
    as disabled when the flag is defined and falsy. *)
Definition integrationDisabled (w : window) : bool :=
  match EMACS_INTEGRATION w with
  | Some false => true
  | _ => false
  end.

(** The [style.display] of the four optional colour controls. *)
Record colorControls : Type := {
  secondaryColor_display : string;
  secondaryColorLabel_display : string;
  customColors_display : string;
  customColorsLabel_display : string
}.

(** [updateColorControls] (lines 107-124): all four are hidden, then the
    ones of the mode are shown. *)
Definition updateColorControls (mode : string) : colorControls :=
  let hidden :=
    {| secondaryColor_display := "none";
       secondaryColorLabel_display := "none";
       customColors_display := "none";
       customColorsLabel_display := "none" |} in
  if String.eqb mode "gradient" then
    {| secondaryColor_display := "inline-block";
       secondaryColorLabel_display := "inline-block";
       customColors_display := customColors_display hidden;
       customColorsLabel_display := customColorsLabel_display hidden |}
  else if String.eqb mode "custom" then
    {| secondaryColor_display := secondaryColor_display hidden;
       secondaryColorLabel_display := secondaryColorLabel_display hidden;
       customColors_display := "inline-block";
       customColorsLabel_display := "inline-block" |}
  else hidden.

(** The click on the plot button (lines 324-333): the calls made on the
    context, how the handler completes, and the text of the error box. *)
Definition plotClick (argumentLimit : nat) (canvas : canvasSize)
    (ui : controls) (valueText labelText : string)
  : list canvasOp * completion unit * string :=
  let '(input, message) := parseInputValues valueText labelText in
  if negb (hasError input) then
    (drawGraph argumentLimit canvas ui (dataValues input) (labels input),
     message)
  else
    ([clearRect (ofZ 0) (ofZ 0) (ofZ (width canvas)) (ofZ (height canvas));
      set_fillStyle (Some "white");
      fillRect (ofZ 0) (ofZ 0) (ofZ (width canvas)) (ofZ (height canvas))],
     Normal tt, message).

(** How [openInEmacs] (lines 501-512) goes on after parsing: it shows a
    message and returns, or it checks that Emacs is installed and launches
    it with the data. *)
Inductive emacsStart : Type :=
| showMessage (message : string)
| checkAndLaunch (dataValues : list number) (labels : list string).

(** [openInEmacs] up to its first [await]. *)
Definition openInEmacs_start (valueText labelText : string) : emacsStart :=
  let input := fst (parseInputValues valueText labelText) in
  if hasError input then
    showMessage "Please fix input errors before opening in Emacs."
  else if (List.length (dataValues input) =? 0)%nat then
    showMessage "No data to display. Please enter some values."
  else checkAndLaunch (dataValues input) (labels input).

(** ** Notions used to state the properties *)

(** Lines 296 and 409: [xOffset += barWidth + barSpacing]. *)
Definition advance (barWidth xOffset : number) : number :=
  add xOffset (add barWidth barSpacing).

(** [xOffset] when bar [i] is reached: [sidePadding] advanced [i] times. *)
Definition xOffsetAt (barWidth : number) (i : nat) : number :=
  Nat.iter i (advance barWidth) sidePadding.

(** The rectangles filled on the canvas, in order: x, y, width, height. *)
Definition rectangles (ops : list canvasOp)
  : list (number * number * number * number) :=
  flat_map (fun op => match op with
                      | fillRect x y w h => [(x, y, w, h)]
                      | _ => []
                      end) ops.

(** The texts written on the canvas, in order. *)
Definition texts (ops : list canvasOp) : list string :=
  flat_map (fun op => match op with
                      | fillText text _ _ => [text]
                      | _ => []
                      end) ops.

(** The text that [hexToRgb] matches after the optional [#]. *)
Definition hexBody (hex : string) : string :=
  match hex with String "#" t => t | _ => hex end.

(** The rectangle of bar [i]: what both renderers compute for it from the
    width of a bar, the scale and the height of the drawing. *)
Definition barRectangle (drawingHeight barWidth scale : number)
    (dataValues : list number) (i : nat)
  : number * number * number * number :=
  let barHeight := mul (numberAt dataValues i) scale in
  (xOffsetAt barWidth i,
   sub (sub drawingHeight bottomPadding) barHeight,
   barWidth,
   barHeight).

(** Texts appended one after the other. *)
Definition joinAll (parts : list string) : string :=
  fold_right append "" parts.

(** Lines 400-406 for bar [i], from its rectangle: the [rect] element and
    the [text] element of its label. *)
Definition svgBarOf (barColors : list (option string)) (labels : list string)
    (bar : nat * (number * number * number * number)) : string :=
  let '(i, (x, y, w, h)) := bar in
  svgRect x y w h (elementAt barColors i)
  ++ svgLabel (add x (div w (ofZ 2))) (ofZ 380) (nth i labels "").

(** Lines 413-420: the axes, their labels and the closing tag. *)
Definition svgClosing (maxValue : number) : string :=
  svgLine sidePadding (sub svgHeight bottomPadding)
          (sub svgWidth sidePadding) (sub svgHeight bottomPadding)
  ++ svgLine sidePadding topPadding sidePadding (sub svgHeight bottomPadding)
  ++ svgAxisLabel (sub sidePadding (ofZ 10)) topPadding (toFixed1 maxValue)
  ++ svgAxisLabel (sub sidePadding (ofZ 10)) (sub svgHeight bottomPadding) "0"
  ++ "</svg>".

(** The text does not go on with a character that satisfies [p]: it is
    empty or its first character does not. *)
Definition stopsAt (p : ascii -> bool) (s : string) : Prop :=
  match s with
  | String c _ => p c = false
  | "" => True
  end.

(** What the pattern of the flag [name] captures when it is matched at
    the very start of [s]: the test that [matchDefine] makes at each place
    of the text. *)
Definition captureAt (name s : string) : option string :=
  match Str.stripPrefix ("#define " ++ name) s with
  | Some rest =>
      let ws := Str.takeWhile Str.isWhiteSpace rest in
      let ds := Str.takeWhile Str.isDigit
                  (Str.dropWhile Str.isWhiteSpace rest) in
      if Str.isEmpty ws || Str.isEmpty ds then None else Some ds
  | None => None
  end.

(** [s] starts with a [#define] of the flag [name] with the number
    [digits]: [#define], a space, the name, white space, and [digits],
    which are all the decimal digits that stand there. *)
Definition matchesAt (name s digits : string) : Prop :=
  exists space after,
    s = ("#define " ++ name) ++ space ++ digits ++ after /\
    space <> "" /\ Str.forallb Str.isWhiteSpace space = true /\
    digits <> "" /\ Str.forallb Str.isDigit digits = true /\
    stopsAt Str.isDigit after.

(** The first [#define] of the flag [name] in the text, with a number,
    reads as [value]: no place before it starts such a [#define], and
    [value] is true exactly when its digits are "1". *)
Definition definedBy (name content : string) (value : bool) : Prop :=
  exists before s digits,
    content = before ++ s /\ matchesAt name s digits /\
    (forall before' s' digits',
       content = before' ++ s' ->
       (String.length before' < String.length before)%nat ->
       ~ matchesAt name s' digits') /\
    value = String.eqb digits "1".

(** A character that is no digit, no white space, no dot, no comma and no
    sign: a letter, for one. *)
Definition plainChar (c : ascii) : bool :=
  negb (Str.isDigit c || Str.isWhiteSpace c || Ascii.eqb c "."
        || Ascii.eqb c "," || Ascii.eqb c "+" || Ascii.eqb c "-").

(** The number of commas of a text. *)
Fixpoint countCommas (s : string) : nat :=
  match s with
  | "" => O
  | String c r => (if Ascii.eqb c "," then 1 else 0) + countCommas r
  end.

(** No comma in a token. *)
Definition commaFree (s : string) : bool :=
  Str.forallb (fun c => negb (Ascii.eqb c ",")) s.

(** ** Inputs of the examples *)

Definition red : rgb := {| r := ofZ 255; g := ofZ 0; b := ofZ 0 |}.
Definition blue : rgb := {| r := ofZ 0; g := ofZ 0; b := ofZ 255 |}.

(** A [config.h] that defines one flag only. *)
Definition onlyEmacs : fileSystem :=
  {| existsSync := Normal true;
     readFileSync := Normal "#define EMACS_INTEGRATION 1" |}.

(** A [config.h] without the Emacs flag. *)
Definition onlyDebug : fileSystem :=
  {| existsSync := Normal true; readFileSync := Normal "#define DEBUG 1" |}.

Definition blueBars : controls :=
  {| colorMode := "single"; primaryColor := "#3498db";
     secondaryColor := "#e74c3c"; customColors := "" |}.

(** [n] times the token [token], separated by commas. *)
Definition commaList (token : string) (n : nat) : string :=
  String.concat "," (repeat token n).

(** A gradient whose first colour is a colour name. *)
Definition namedGradient : controls :=
  {| colorMode := "gradient"; primaryColor := "red";
     secondaryColor := "#0000ff"; customColors := "" |}.

Definition twoColours : controls :=
  {| colorMode := "custom"; primaryColor := "#3498db";
     secondaryColor := "#e74c3c"; customColors := "#ff0000,#00ff00" |}.

(** ** Facts about binary64 rounding *)

Module JSFacts.
Local Open Scope Q_scope.
Import JS.

Lemma round64_comp (p q : Q) : p == q -> round64 p = round64 q.
Proof.
  intros H. unfold round64. rewrite (Qred_complete _ _ H). reflexivity.
Qed.

Lemma Qred_inject_Z (z : Z) : Qred (inject_Z z) = inject_Z z.
Proof.
  apply Qred_identity. simpl. apply Z.gcd_1_r.
Qed.

Lemma round_half_even_comp (p q : Q) :
  p == q -> round_half_even p = round_half_even q.
Proof.
  intros H. unfold round_half_even.
  rewrite (Qfloor_comp _ _ H).
  assert (Hr : p - inject_Z (Qfloor q) == q - inject_Z (Qfloor q))
    by (rewrite H; reflexivity).
  rewrite (Qcompare_comp _ _ Hr (1 # 2) (1 # 2) (Qeq_refl _)).
  reflexivity.
Qed.

Lemma round_half_even_Z (n : Z) : round_half_even (inject_Z n) = n.
Proof.
  unfold round_half_even. rewrite Qfloor_Z.
  assert (Hr : inject_Z n - inject_Z n == 0) by ring.
  rewrite (Qcompare_comp _ _ Hr (1 # 2) (1 # 2) (Qeq_refl _)).
  reflexivity.
Qed.

Lemma two_power (k : Z) : (0 <= k)%Z -> Qpower 2 k == inject_Z (2 ^ k).
Proof.
  intros Hk. rewrite Zpower_Qpower by assumption. reflexivity.
Qed.

Lemma floor_log2_Z (z : Z) :
  (0 < z)%Z -> floor_log2 (inject_Z z) = Z.log2 z.
Proof.
  intros Hz. unfold floor_log2.
  change (Qnum (inject_Z z)) with z.
  change (Z.pos (Qden (inject_Z z))) with 1%Z.
  change (Z.log2 1) with 0%Z. rewrite Z.sub_0_r.
  assert (Hle : Qle_bool (Qpower 2 (Z.log2 z)) (inject_Z z) = true).
  { apply Qle_bool_iff. rewrite two_power by apply Z.log2_nonneg.
    rewrite <- Zle_Qle. apply Z.log2_spec. assumption. }
  rewrite Hle. reflexivity.
Qed.

(** A positive integer below 2^53 is its own rounding. *)
Lemma roundMagnitude_int (z : Z) :
  (0 < z < 2 ^ 53)%Z -> roundMagnitude (inject_Z z) = inject_Z z.
Proof.
  intros [Hpos Hlt]. unfold roundMagnitude.
  rewrite floor_log2_Z by assumption.
  pose proof (Z.log2_nonneg z) as He0.
  assert (He : (Z.log2 z < 53)%Z) by (apply Z.log2_lt_pow2; assumption).
  rewrite Z.max_l by lia.
  set (k := (52 - Z.log2 z)%Z).
  assert (Hk : (0 <= k)%Z) by (unfold k; lia).
  assert (HP : Qpower 2 (Z.log2 z - 52) == / inject_Z (2 ^ k)).
  { replace (Z.log2 z - 52)%Z with (- k)%Z by (unfold k; lia).
    rewrite Qpower_opp, two_power by assumption. reflexivity. }
  assert (Hnz : ~ inject_Z (2 ^ k) == 0).
  { change 0 with (inject_Z 0). rewrite inject_Z_injective.
    apply Z.pow_nonzero; lia. }
  assert (Hm : inject_Z z / Qpower 2 (Z.log2 z - 52) == inject_Z (z * 2 ^ k)).
  { rewrite HP, inject_Z_mult. field. assumption. }
  cbv zeta.
  rewrite (round_half_even_comp _ _ Hm), round_half_even_Z.
  assert (Hr : inject_Z (z * 2 ^ k) * Qpower 2 (Z.log2 z - 52) == inject_Z z).
  { rewrite HP, inject_Z_mult. field. assumption. }
  rewrite (Qred_complete _ _ Hr), Qred_inject_Z. reflexivity.
Qed.

Lemma no_overflow_int (z : Z) :
  (z < 2 ^ 53)%Z -> Qle_bool (Qpower 2 1024) (inject_Z z) = false.
Proof.
  intros Hlt. apply not_true_is_false. intros H. apply Qle_bool_iff in H.
  rewrite two_power in H by lia. rewrite <- Zle_Qle in H.
  assert (2 ^ 53 <= 2 ^ 1024)%Z by (apply Z.pow_le_mono_r; lia). lia.
Qed.

(** Every integer below 2^53 in magnitude is a binary64 value. *)
Lemma round64_int (z : Z) :
  (- 2 ^ 53 < z < 2 ^ 53)%Z -> round64 (inject_Z z) = ofZ z.
Proof.
  intros Hz. unfold ofZ, round64. rewrite Qred_inject_Z. cbv zeta.
  destruct (Z.lt_trichotomy z 0) as [Hneg | [-> | Hpos]].
  - assert (Hc : (inject_Z z ?= 0) = Lt).
    { apply (proj1 (Qlt_alt _ _)). unfold Qlt. simpl. lia. }
    assert (Ha : Qabs (inject_Z z) = inject_Z (- z)).
    { unfold Qabs, inject_Z. rewrite Z.abs_neq by lia. reflexivity. }
    rewrite Hc, Ha, roundMagnitude_int, no_overflow_int by lia.
    rewrite <- (Qred_inject_Z z). do 2 f_equal.
    unfold Qopp, inject_Z. simpl. rewrite Z.opp_involutive. reflexivity.
  - reflexivity.
  - assert (Hc : (inject_Z z ?= 0) = Gt).
    { apply (proj1 (Qgt_alt _ _)). unfold Qlt. simpl. lia. }
    assert (Ha : Qabs (inject_Z z) = inject_Z z).
    { unfold Qabs, inject_Z. rewrite Z.abs_eq by lia. reflexivity. }
    rewrite Hc, Ha, roundMagnitude_int, no_overflow_int by lia.
    reflexivity.
Qed.


Lemma neg_ofZ (z : Z) : neg (ofZ z) = ofZ (- z).
Proof.
  unfold neg, ofZ. rewrite <- (Qred_inject_Z (- z)). reflexivity.
Qed.

Lemma add_int (x y : Z) :
  (- 2 ^ 53 < x + y < 2 ^ 53)%Z -> add (ofZ x) (ofZ y) = ofZ (x + y).
Proof.
  intros H. unfold add, ofZ.
  rewrite (round64_comp _ (inject_Z (x + y))) by (rewrite inject_Z_plus; reflexivity).
  apply round64_int. assumption.
Qed.

Lemma sub_int (x y : Z) :
  (- 2 ^ 53 < x - y < 2 ^ 53)%Z -> sub (ofZ x) (ofZ y) = ofZ (x - y).
Proof.
  intros H. unfold sub. rewrite neg_ofZ. apply add_int. lia.
Qed.

Lemma mul_int (x y : Z) :
  (- 2 ^ 53 < x * y < 2 ^ 53)%Z -> mul (ofZ x) (ofZ y) = ofZ (x * y).
Proof.
  intros H. unfold mul, ofZ.
  rewrite (round64_comp _ (inject_Z (x * y))) by (rewrite inject_Z_mult; reflexivity).
  apply round64_int. assumption.
Qed.

Lemma isZero_ofZ (z : Z) : isZero (inject_Z z) = (z =? 0)%Z.
Proof.
  unfold isZero, Qeq_bool, inject_Z. simpl. rewrite Z.mul_1_r.
  destruct z; reflexivity.
Qed.

(** A non-zero number divided by itself is one. *)
Lemma div_same (z : Z) : z <> 0%Z -> div (ofZ z) (ofZ z) = ofZ 1.
Proof.
  intros Hz. unfold div, ofZ. rewrite isZero_ofZ.
  destruct (Z.eqb_spec z 0) as [E | _]; [contradiction |].
  rewrite (round64_comp _ (inject_Z 1)).
  - apply round64_int. lia.
  - field. change 0 with (inject_Z 0). rewrite inject_Z_injective. assumption.
Qed.

Lemma div_one (z : Z) :
  (- 2 ^ 53 < z < 2 ^ 53)%Z -> div (ofZ z) (ofZ 1) = ofZ z.
Proof.
  intros Hz. unfold div, ofZ.
  rewrite (round64_comp _ (inject_Z z)) by (unfold Qdiv, Qinv, inject_Z; simpl; ring).
  apply round64_int. assumption.
Qed.

(** Zero times a finite number is zero. *)
Lemma mul_zero_finite (s : Q) : mul (ofZ 0) (Fin s) = ofZ 0.
Proof.
  unfold mul, ofZ. rewrite (round64_comp _ 0) by ring. reflexivity.
Qed.

Lemma Math_round_int (z : Z) : Math_round (ofZ z) = ofZ z.
Proof.
  unfold Math_round, ofZ. f_equal. f_equal.
  unfold Qfloor, Qplus, inject_Z. simpl.
  replace (z * 2 + 1)%Z with (1 + z * 2)%Z by ring.
  rewrite Z.div_add by lia. reflexivity.
Qed.

End JSFacts.

(** ** The input parser *)

Module ParserFacts.
Import JSFacts.

Lemma parseInputValues_equal (valueText labelText : string) :
  List.length (parseValues valueText) = List.length (parseLabels labelText) ->
  parseInputValues valueText labelText
  = ({| dataValues := parseValues valueText;
        labels := parseLabels labelText;
        hasError := false |}, "").
Proof.
  intros H. unfold parseInputValues, parseInputValues_try. cbn [bind tryCatch].
  apply Nat.eqb_eq in H. rewrite H. reflexivity.
Qed.

Lemma parseInputValues_differ (valueText labelText : string) :
  List.length (parseValues valueText) <> List.length (parseLabels labelText) ->
  parseInputValues valueText labelText = (errorResult, mismatchMessage).
Proof.
  intros H. unfold parseInputValues, parseInputValues_try. cbn [bind tryCatch].
  apply Nat.eqb_neq in H. rewrite H. reflexivity.
Qed.

(** [Math.max(0, val)] of a number that is not NaN is neither NaN nor
    negative. *)
Lemma clamp_nonnegative (val : number) :
  isNaN val = false ->
  isNaN (max2 (ofZ 0) val) = false /\ lt (max2 (ofZ 0) val) (ofZ 0) = false.
Proof.
  destruct val as [ | | | v]; cbn; try discriminate; auto.
  intros _. change (inject_Z 0) with 0%Q.
  destruct (Qle_bool v 0) eqn:E; cbn; auto.
  split; [reflexivity |]. change (inject_Z 0) with 0%Q.
  destruct (Qle_bool 0 v) eqn:E'; [reflexivity | exfalso].
  assert (H : ~ (v <= 0)%Q) by (rewrite <- Qle_bool_iff, E; discriminate).
  assert (H' : ~ (0 <= v)%Q) by (rewrite <- Qle_bool_iff, E'; discriminate).
  apply H. apply Qlt_le_weak. apply Qnot_le_lt. assumption.
Qed.

Lemma parseValues_nonnegative (valueText : string) :
  Forall (fun val => isNaN val = false /\ lt val (ofZ 0) = false)
         (parseValues valueText).
Proof.
  unfold parseValues. apply Forall_map.
  apply Forall_forall. intros val Hin.
  apply filter_In in Hin. destruct Hin as [_ Hnan].
  apply clamp_nonnegative. apply negb_true_iff. assumption.
Qed.

End ParserFacts.

(** C5: when the number of parsed values differs from the number of
    labels, [parseInputValues] reports the mismatch and returns a result
    with no value and no label at all: nothing is truncated, padded or
    partially aligned. *)
Theorem parse_count_mismatch_is_error (valueText labelText : string) :
  List.length (parseValues valueText) <> List.length (parseLabels labelText) ->
  parseInputValues valueText labelText
  = ({| dataValues := []; labels := []; hasError := true |},
     "Error: Number of values must match the number of labels.").
Proof.
  apply ParserFacts.parseInputValues_differ.
Qed.

Lemma parse_count_mismatch_is_error_witness :
  List.length (parseValues "10,20") <> List.length (parseLabels "A,B,C") /\
  parseInputValues "10,20" "A,B,C"
  = ({| dataValues := []; labels := []; hasError := true |},
     "Error: Number of values must match the number of labels.").
Proof.
  split.
  - vm_compute. lia.
  - apply (parse_count_mismatch_is_error "10,20" "A,B,C"). vm_compute. lia.
Defined.

(** C6: when the number of parsed values equals the number of labels,
    [parseInputValues] succeeds; the values and the labels it returns have
    the same length, and no value is NaN or negative, every parsed number
    being clamped at zero.  So the inputs "10,-5,30" and "A,B,C" give the
    values 10, 0, 30 and no error. *)
Theorem parse_equal_counts_succeeds (valueText labelText : string) :
  List.length (parseValues valueText) = List.length (parseLabels labelText) ->
  let result := fst (parseInputValues valueText labelText) in
  hasError result = false /\
  snd (parseInputValues valueText labelText) = "" /\
  dataValues result = parseValues valueText /\
  labels result = parseLabels labelText /\
  List.length (dataValues result) = List.length (labels result) /\
  Forall (fun val => isNaN val = false /\ lt val (ofZ 0) = false)
         (dataValues result) /\
  parseInputValues "10,-5,30" "A,B,C"
  = ({| dataValues := [ofZ 10; ofZ 0; ofZ 30];
        labels := ["A"; "B"; "C"];
        hasError := false |}, "").
Proof.
  intros H. cbv zeta.
  rewrite (ParserFacts.parseInputValues_equal _ _ H). cbn [fst snd dataValues labels hasError].
  repeat split; auto using ParserFacts.parseValues_nonnegative.
Qed.

Lemma parse_equal_counts_succeeds_witness :
  List.length (parseValues "10,abc,20") = List.length (parseLabels "A,B") /\
  (let result := fst (parseInputValues "10,abc,20" "A,B") in
   hasError result = false /\
   snd (parseInputValues "10,abc,20" "A,B") = "" /\
   dataValues result = parseValues "10,abc,20" /\
   labels result = parseLabels "A,B" /\
   List.length (dataValues result) = List.length (labels result) /\
   Forall (fun val => isNaN val = false /\ lt val (ofZ 0) = false)
          (dataValues result) /\
   parseInputValues "10,-5,30" "A,B,C"
   = ({| dataValues := [ofZ 10; ofZ 0; ofZ 30];
         labels := ["A"; "B"; "C"];
         hasError := false |}, "")).
Proof.
  split.
  - vm_compute. reflexivity.
  - apply (parse_equal_counts_succeeds "10,abc,20" "A,B").
    vm_compute. reflexivity.
Defined.

(** C2: the parser drops the tokens that [parseFloat] reads as NaN, and
    only those: "10,abc,20" gives two values, but "10,Infinity,20" gives
    three, the middle one infinite, and passes validation against three
    labels; the bar of the infinite value then has the height NaN. *)
Theorem parse_keeps_infinity :
  parseValues "10,abc,20" = [ofZ 10; ofZ 20] /\
  parseValues "10,NaN,20" = [ofZ 10; ofZ 20] /\
  parseValues "10,Infinity,20" = [ofZ 10; PInf; ofZ 20] /\
  parseInputValues "10,Infinity,20" "A,B,C"
  = ({| dataValues := [ofZ 10; PInf; ofZ 20];
        labels := ["A"; "B"; "C"];
        hasError := false |}, "") /\
  parseInputValues "10,Infinity,20" "A,B" = (errorResult, mismatchMessage) /\
  mul PInf (drawGraph_scale defaultCanvas [ofZ 10; PInf; ofZ 20]) = NaN.
Proof.
  repeat split; vm_compute; reflexivity.
Qed.

(** ** Loops that push one element per turn *)

Module LoopFacts.

Lemma forFrom_push {A : Type} (f : nat -> A) (n from : nat) (acc : list A) :
  forFrom from n (fun i colors => (colors ++ [f i])%list) acc
  = (acc ++ map f (seq from n))%list.
Proof.
  revert from acc. induction n as [ | n IH]; intros from acc; cbn [forFrom seq map].
  - symmetry. apply app_nil_r.
  - rewrite IH, <- app_assoc. reflexivity.
Qed.

Lemma forLoop_push {A : Type} (f : nat -> A) (n : nat) :
  forLoop n (fun i colors => (colors ++ [f i])%list) [] = map f (seq 0 n).
Proof.
  unfold forLoop. rewrite forFrom_push. reflexivity.
Qed.

Lemma forFromM_push {A : Type} (body : nat -> list A -> completion (list A))
    (f : nat -> A) (n from : nat) (acc : list A) :
  (forall i colors, body i colors = Normal (colors ++ [f i])%list) ->
  forFromM from n body acc = Normal (acc ++ map f (seq from n))%list.
Proof.
  intros Hbody. revert from acc.
  induction n as [ | n IH]; intros from acc; cbn [forFromM seq map].
  - rewrite app_nil_r. reflexivity.
  - rewrite Hbody. cbn [bind]. rewrite IH, <- app_assoc. reflexivity.
Qed.

Lemma nth_error_map_seq {A : Type} (f : nat -> A) (n i : nat) :
  (i < n)%nat -> nth_error (map f (seq 0 n)) i = Some (f i).
Proof.
  intros Hi. rewrite nth_error_map, nth_error_seq.
  apply Nat.ltb_lt in Hi. rewrite Hi. reflexivity.
Qed.

End LoopFacts.

(** ** The colour generators *)

Module ColorFacts.
Import JSFacts LoopFacts.

Lemma generateRainbowColors_map (count : nat) :
  generateRainbowColors count
  = map (fun i => Some (hslString (rainbowHue count i))) (seq 0 count).
Proof.
  unfold generateRainbowColors. rewrite forLoop_push. reflexivity.
Qed.

(** The hue of a step is the binary64 value nearest to [i * 360 / count]. *)
Lemma rainbowHue_value (count i : nat) :
  (i < count)%nat -> (Z.of_nat count < 2 ^ 32)%Z ->
  rainbowHue count i
  = round64 (inject_Z (Z.of_nat i * 360) / inject_Z (Z.of_nat count)).
Proof.
  intros Hi Hc. unfold rainbowHue, ofNat.
  rewrite mul_int by lia.
  unfold div, ofZ. rewrite isZero_ofZ.
  destruct (Z.eqb_spec (Z.of_nat count) 0); [lia | reflexivity].
Qed.

Lemma split_nonempty (s : string) : (1 <= List.length (Str.split s))%nat.
Proof.
  induction s as [ | c s IH]; cbn [Str.split List.length]; [lia |].
  destruct (Ascii.eqb c ","); cbn [List.length]; [lia |].
  destruct (Str.split s); cbn [List.length]; lia.
Qed.

Lemma atModulo_defined (palette : list string) (i : nat) :
  (1 <= List.length palette)%nat ->
  exists color,
    nth_error palette (i mod List.length palette) = Some color /\
    atModulo palette i = Some color.
Proof.
  intros Hlen. unfold atModulo.
  destruct (nth_error palette (i mod List.length palette)) as [color | ] eqn:E.
  - exists color. split; [reflexivity |].
    destruct (List.length palette); [lia | reflexivity].
  - apply nth_error_None in E.
    pose proof (Nat.mod_upper_bound i (List.length palette)). lia.
Qed.

End ColorFacts.

(** C8, as the spec words it: in rainbow mode four colours are not the
    strings without a space after each comma. *)
Lemma rainbow_strings_without_spaces_differ :
  generateColors {| colorMode := "rainbow"; primaryColor := "#3498db";
                    secondaryColor := "#e74c3c"; customColors := "" |} 4
  <> Normal [Some "hsl(0,70%,50%)"; Some "hsl(90,70%,50%)";
             Some "hsl(180,70%,50%)"; Some "hsl(270,70%,50%)"].
Proof.
  vm_compute. intros H. discriminate H.
Qed.

(** C8: in rainbow mode the colour of step [i] of [count] is the string
    "hsl(H, 70%, 50%)", with a space after each comma, where [H] is the
    hue [i * 360 / count] as a binary64 number; four colours are
    "hsl(0, 70%, 50%)", "hsl(90, 70%, 50%)", "hsl(180, 70%, 50%)" and
    "hsl(270, 70%, 50%)". *)
Theorem rainbow_hue_steps (count i : nat) :
  (i < count)%nat -> (Z.of_nat count < 2 ^ 32)%Z ->
  nth_error (generateRainbowColors count) i
  = Some (Some ("hsl(" ++
                Number_toString
                  (round64 (inject_Z (Z.of_nat i * 360) / inject_Z (Z.of_nat count)))
                ++ ", 70%, 50%)")) /\
  List.length (generateRainbowColors count) = count /\
  forall ui, colorMode ui = "rainbow" ->
    generateColors ui 4
    = Normal [Some "hsl(0, 70%, 50%)"; Some "hsl(90, 70%, 50%)";
              Some "hsl(180, 70%, 50%)"; Some "hsl(270, 70%, 50%)"].
Proof.
  intros Hi Hc. rewrite ColorFacts.generateRainbowColors_map.
  split; [| split].
  - rewrite LoopFacts.nth_error_map_seq by assumption.
    rewrite ColorFacts.rainbowHue_value by assumption. reflexivity.
  - rewrite length_map, length_seq. reflexivity.
  - intros ui Hmode. unfold generateColors. rewrite Hmode. vm_compute. reflexivity.
Qed.

Lemma rainbow_hue_steps_witness :
  (1 < 7)%nat /\ (Z.of_nat 7 < 2 ^ 32)%Z /\
  (nth_error (generateRainbowColors 7) 1
   = Some (Some ("hsl(" ++
                 Number_toString
                   (round64 (inject_Z (Z.of_nat 1 * 360) / inject_Z (Z.of_nat 7)))
                 ++ ", 70%, 50%)")) /\
   List.length (generateRainbowColors 7) = 7%nat /\
   forall ui, colorMode ui = "rainbow" ->
     generateColors ui 4
     = Normal [Some "hsl(0, 70%, 50%)"; Some "hsl(90, 70%, 50%)";
               Some "hsl(180, 70%, 50%)"; Some "hsl(270, 70%, 50%)"]).
Proof.
  split; [lia | split; [vm_compute; reflexivity |]].
  apply (rainbow_hue_steps 7 1); [lia | vm_compute; reflexivity].
Defined.

(** C10: in custom mode the palette, the custom-colours text split on
    commas, has at least one element, so the index [i % list.length] is
    never a remainder by zero; [generateColors] returns exactly [count]
    colours, each of them a string of the palette, taken in order and
    cycling when the palette is shorter than [count]. *)
Theorem custom_palette_cycles (ui : controls) (count : nat) :
  colorMode ui = "custom" ->
  let palette := map Str.trim (Str.split (customColors ui)) in
  (1 <= List.length palette)%nat /\
  exists colors,
    generateColors ui count = Normal colors /\
    List.length colors = count /\
    forall i, (i < count)%nat ->
      exists color,
        nth_error palette (i mod List.length palette) = Some color /\
        nth_error colors i = Some (Some color).
Proof.
  intros Hmode palette.
  assert (Hlen : (1 <= List.length palette)%nat).
  { unfold palette. rewrite length_map. apply ColorFacts.split_nonempty. }
  split; [assumption |].
  unfold generateColors. rewrite Hmode.
  change (String.eqb "custom" "single") with false.
  change (String.eqb "custom" "gradient") with false.
  change (String.eqb "custom" "rainbow") with false.
  change (String.eqb "custom" "custom") with true.
  cbv iota. fold palette.
  destruct (Nat.leb_spec count (List.length palette)) as [Hle | Hgt].
  - eexists. split; [reflexivity |]. split.
    + rewrite length_map, length_firstn. lia.
    + intros i Hi. rewrite Nat.mod_small by lia.
      destruct (nth_error palette i) as [color | ] eqn:E.
      * exists color. split; [reflexivity |].
        rewrite nth_error_map, nth_error_firstn.
        apply Nat.ltb_lt in Hi. rewrite Hi, E. reflexivity.
      * apply nth_error_None in E. lia.
  - eexists. split; [reflexivity |].
    rewrite LoopFacts.forLoop_push. split.
    + rewrite length_map, length_seq. reflexivity.
    + intros i Hi. rewrite LoopFacts.nth_error_map_seq by assumption.
      destruct (ColorFacts.atModulo_defined palette i Hlen) as (color & Hp & Ha).
      exists color. rewrite Ha. split; [assumption | reflexivity].
Qed.

Lemma custom_palette_cycles_witness :
  colorMode twoColours = "custom" /\
  (let palette := map Str.trim (Str.split (customColors twoColours)) in
   (1 <= List.length palette)%nat /\
   exists colors,
     generateColors twoColours 4 = Normal colors /\
     List.length colors = 4%nat /\
     forall i, (i < 4)%nat ->
       exists color,
         nth_error palette (i mod List.length palette) = Some color /\
         nth_error colors i = Some (Some color)).
Proof.
  split.
  - reflexivity.
  - apply (custom_palette_cycles twoColours 4). reflexivity.
Defined.

(** ** Gradients *)

Module GradientFacts.
Import JSFacts LoopFacts.

Lemma hexValue_range (c : ascii) :
  Str.isHexDigit c = true -> (0 <= Str.hexValue c <= 15)%Z.
Proof.
  destruct c as [[] [] [] [] [] [] [] []]; vm_compute;
    intros H; try discriminate H; split; discriminate.
Qed.

Lemma parseInt16_pair (c d : ascii) :
  Str.isHexDigit c = true -> Str.isHexDigit d = true ->
  parseInt16 (String c (String d ""))
  = ofZ (16 * Str.hexValue c + Str.hexValue d).
Proof.
  intros Hc Hd. unfold parseInt16. cbn [Str.takeWhile].
  rewrite Hc, Hd. cbn [Str.isEmpty Str.hexDigitsValue].
  f_equal; lia.
Qed.

(** A colour that [hexToRgb] accepts has three integer channels from 0 to
    255. *)
Lemma hexToRgb_channels (hex : string) (c : rgb) :
  hexToRgb hex = Some c ->
  exists zr zg zb,
    (0 <= zr <= 255)%Z /\ (0 <= zg <= 255)%Z /\ (0 <= zb <= 255)%Z /\
    c = {| r := ofZ zr; g := ofZ zg; b := ofZ zb |}.
Proof.
  unfold hexToRgb.
  set (body := match hex with String "#" t => t | _ => hex end).
  destruct ((String.length body =? 6)%nat && Str.forallb Str.isHexDigit body)
    eqn:E; [| discriminate].
  apply andb_true_iff in E. destruct E as [Hlen Hhex].
  apply Nat.eqb_eq in Hlen.
  destruct body as [ | c1 [ | c2 [ | c3 [ | c4 [ | c5 [ | c6 [ | ? ?]]]]]]];
    try discriminate Hlen.
  cbn [Str.forallb] in Hhex.
  repeat (apply andb_true_iff in Hhex; destruct Hhex as [? Hhex]).
  cbn [substring]. rewrite !parseInt16_pair by assumption.
  intros Hc. injection Hc as <-.
  repeat match goal with
         | Hd : Str.isHexDigit _ = true |- _ => apply hexValue_range in Hd
         end.
  exists (16 * Str.hexValue c1 + Str.hexValue c2)%Z,
         (16 * Str.hexValue c3 + Str.hexValue c4)%Z,
         (16 * Str.hexValue c5 + Str.hexValue c6)%Z.
  repeat split; try lia.
Qed.

(** With the ratio one the channel is that of the second colour. *)
Lemma interpolate_one (f : rgb -> number) (c1 c2 : rgb) (z1 z2 : Z) :
  (0 <= z1 <= 255)%Z -> (0 <= z2 <= 255)%Z ->
  f c1 = ofZ z1 -> f c2 = ofZ z2 ->
  interpolate f (Some c1) (Some c2) (ofZ 1) = Normal (f c2).
Proof.
  intros H1 H2 E1 E2. unfold interpolate, channel. cbn [bind].
  rewrite E1, E2, sub_int, mul_int, add_int, Math_round_int by lia.
  do 2 f_equal. lia.
Qed.

(** With the ratio zero the channel is that of the first colour. *)
Lemma interpolate_zero (f : rgb -> number) (c1 c2 : rgb) (z1 z2 : Z) :
  (0 <= z1 <= 255)%Z -> (0 <= z2 <= 255)%Z ->
  f c1 = ofZ z1 -> f c2 = ofZ z2 ->
  interpolate f (Some c1) (Some c2) (ofZ 0) = Normal (f c1).
Proof.
  intros H1 H2 E1 E2. unfold interpolate, channel. cbn [bind].
  rewrite E1, E2, sub_int, mul_int, add_int, Math_round_int by lia.
  do 2 f_equal. lia.
Qed.

(** [steps - 1], computed on numbers, is the number of [steps - 1]. *)
Lemma gradientRatio_many (steps i : nat) :
  (1 < steps)%nat -> (Z.of_nat steps < 2 ^ 32)%Z ->
  gradientRatio steps i = div (ofNat i) (ofNat (steps - 1)).
Proof.
  intros Hs Hb. unfold gradientRatio.
  destruct (Nat.eqb_spec steps 1) as [E | _]; [lia |].
  unfold ofNat. rewrite sub_int by lia.
  do 2 f_equal. lia.
Qed.

Lemma gradientRatio_last (steps : nat) :
  (1 < steps)%nat -> (Z.of_nat steps < 2 ^ 32)%Z ->
  gradientRatio steps (steps - 1) = ofZ 1.
Proof.
  intros Hs Hb. rewrite gradientRatio_many by assumption.
  apply div_same. lia.
Qed.

Lemma generateGradientColors_map (color1 color2 : string) (c1 c2 : rgb)
    (steps : nat) :
  hexToRgb color1 = Some c1 -> hexToRgb color2 = Some c2 ->
  generateGradientColors color1 color2 steps
  = Normal (map (fun i => Some (rgbString (channelAt r c1 c2 steps i)
                                          (channelAt g c1 c2 steps i)
                                          (channelAt b c1 c2 steps i)))
                (seq 0 steps)).
Proof.
  intros E1 E2. unfold generateGradientColors, forLoopM.
  rewrite E1, E2.
  erewrite forFromM_push; [reflexivity |].
  intros i colors. reflexivity.
Qed.

End GradientFacts.

(** C4: in gradient mode, for more than one step the ratio of step [i] is
    [i / (steps - 1)], and the last colour has exactly the channels of the
    second colour; for one step the ratio is zero and the only colour has
    exactly the channels of the first colour. *)
Theorem gradient_endpoints (color1 color2 : string) (c1 c2 : rgb)
    (steps : nat) :
  hexToRgb color1 = Some c1 -> hexToRgb color2 = Some c2 ->
  (1 < steps)%nat -> (Z.of_nat steps < 2 ^ 32)%Z ->
  (forall i, gradientRatio steps i = div (ofNat i) (ofNat (steps - 1))) /\
  (exists colors,
     generateGradientColors color1 color2 steps = Normal colors /\
     List.length colors = steps /\
     nth_error colors (steps - 1)
     = Some (Some (rgbString (r c2) (g c2) (b c2)))) /\
  gradientRatio 1 0 = ofZ 0 /\
  generateGradientColors color1 color2 1
  = Normal [Some (rgbString (r c1) (g c1) (b c1))].
Proof.
  intros E1 E2 Hs Hb.
  destruct (GradientFacts.hexToRgb_channels _ _ E1)
    as (r1 & g1 & b1 & Hr1 & Hg1 & Hb1 & ->).
  destruct (GradientFacts.hexToRgb_channels _ _ E2)
    as (r2 & g2 & b2 & Hr2 & Hg2 & Hb2 & ->).
  cbn [r g b].
  split; [| split; [| split]].
  - intros i. apply GradientFacts.gradientRatio_many; assumption.
  - eexists. split; [apply (GradientFacts.generateGradientColors_map _ _ _ _ _ E1 E2) |].
    split.
    + rewrite length_map, length_seq. reflexivity.
    + rewrite LoopFacts.nth_error_map_seq by lia.
      unfold channelAt.
      rewrite GradientFacts.gradientRatio_last by assumption. cbn [r g b].
      rewrite !JSFacts.sub_int, !JSFacts.mul_int, !JSFacts.add_int,
        !JSFacts.Math_round_int by lia.
      do 3 f_equal; f_equal; lia.
  - reflexivity.
  - rewrite (GradientFacts.generateGradientColors_map _ _ _ _ _ E1 E2).
    cbn [seq map]. unfold channelAt. cbn [r g b].
    change (gradientRatio 1 0) with (ofZ 0).
    rewrite !JSFacts.sub_int, !JSFacts.mul_int, !JSFacts.add_int,
      !JSFacts.Math_round_int by lia.
    do 4 f_equal; f_equal; lia.
Qed.

Lemma gradient_endpoints_witness :
  hexToRgb "#ff0000" = Some red /\ hexToRgb "#0000ff" = Some blue /\
  (1 < 3)%nat /\ (Z.of_nat 3 < 2 ^ 32)%Z /\
  ((forall i, gradientRatio 3 i = div (ofNat i) (ofNat (3 - 1))) /\
   (exists colors,
      generateGradientColors "#ff0000" "#0000ff" 3 = Normal colors /\
      List.length colors = 3%nat /\
      nth_error colors (3 - 1)
      = Some (Some (rgbString (r blue) (g blue) (b blue)))) /\
   gradientRatio 1 0 = ofZ 0 /\
   generateGradientColors "#ff0000" "#0000ff" 1
   = Normal [Some (rgbString (r red) (g red) (b red))]).
Proof.
  split; [reflexivity | split; [reflexivity | split; [lia | split]]].
  - vm_compute. reflexivity.
  - apply (gradient_endpoints "#ff0000" "#0000ff" red blue 3);
      [reflexivity | reflexivity | lia | vm_compute; reflexivity].
Defined.

(** ** Configuration *)

(** C3: [loadConfiguration] sets the defaults EMACS_INTEGRATION = 1,
    DEBUG = 0, VERBOSE = 0 when [config.h] is missing and when looking for
    it or reading it fails, but not when the file is read and a key is
    missing from it: with a [config.h] that defines only
    [EMACS_INTEGRATION], [DEBUG] and [VERBOSE] are left undefined, neither
    parsed nor set to their defaults. *)
Theorem missing_keys_stay_undefined :
  (forall fs w,
     existsSync fs = Normal false ->
     loadConfiguration fs w = defaultConfiguration) /\
  (forall fs w,
     (exists e, existsSync fs = Throw e) ->
     loadConfiguration fs w = defaultConfiguration) /\
  (forall fs w,
     existsSync fs = Normal true -> (exists e, readFileSync fs = Throw e) ->
     loadConfiguration fs w = defaultConfiguration) /\
  defaultConfiguration
  = {| EMACS_INTEGRATION := Some true; DEBUG := Some false;
       VERBOSE := Some false |} /\
  loadConfiguration onlyEmacs freshWindow
  = {| EMACS_INTEGRATION := Some true; DEBUG := undefined;
       VERBOSE := undefined |} /\
  DEBUG (loadConfiguration onlyEmacs freshWindow) <> DEBUG defaultConfiguration /\
  VERBOSE (loadConfiguration onlyEmacs freshWindow)
  <> VERBOSE defaultConfiguration.
Proof.
  split; [| split; [| split; [| split; [reflexivity |]]]].
  - intros fs w H. unfold loadConfiguration. rewrite H. reflexivity.
  - intros fs w [e H]. unfold loadConfiguration. rewrite H. reflexivity.
  - intros fs w H [e Hr]. unfold loadConfiguration. rewrite H, Hr.
    reflexivity.
  - vm_compute. repeat split; discriminate.
Qed.

(** ** Arrays spread into arguments *)

Module SpreadFacts.

Lemma spread_within {A B : Type} (argumentLimit : nat) (f : list A -> B)
    (a : list A) :
  (List.length a <= argumentLimit)%nat ->
  spread argumentLimit f a = Normal (f a).
Proof.
  intros H. unfold spread. apply Nat.leb_le in H. rewrite H. reflexivity.
Qed.

Lemma spread_beyond {A B : Type} (argumentLimit : nat) (f : list A -> B)
    (a : list A) :
  (argumentLimit < List.length a)%nat ->
  spread argumentLimit f a = Throw rangeError.
Proof.
  intros H. unfold spread. apply Nat.leb_gt in H. rewrite H. reflexivity.
Qed.

(** Within the limit, what [drawGraph] does is what it does when the limit
    is the number of values itself. *)
Lemma drawGraph_within (argumentLimit : nat) (canvas : canvasSize)
    (ui : controls) (dataValues : list number) (labels : list string) :
  (List.length dataValues <= argumentLimit)%nat ->
  drawGraph argumentLimit canvas ui dataValues labels
  = drawGraph (List.length dataValues) canvas ui dataValues labels.
Proof.
  intros H. unfold drawGraph.
  rewrite (spread_within argumentLimit _ _ H).
  rewrite (spread_within (List.length dataValues) _ _ (Nat.le_refl _)).
  reflexivity.
Qed.

Lemma exportSVG_within (argumentLimit : nat) (ui : controls)
    (valueText labelText : string) :
  let n := List.length (dataValues (fst (parseInputValues valueText labelText))) in
  (n <= argumentLimit)%nat ->
  exportSVG argumentLimit ui valueText labelText
  = exportSVG n ui valueText labelText.
Proof.
  intros n H. unfold exportSVG.
  rewrite (spread_within argumentLimit _ _ H).
  rewrite (spread_within n _ _ (Nat.le_refl _)).
  reflexivity.
Qed.

End SpreadFacts.

(** ** Geometry *)

Module GeometryFacts.
Import JSFacts.

(** The divisor of the scale is positive, whatever the values are. *)
Lemma scaleDivisor_positive (maxValue : number) :
  gt (scaleDivisor maxValue) (ofZ 0) = true.
Proof.
  unfold scaleDivisor. destruct (gt maxValue (ofZ 0)) eqn:E; [assumption | reflexivity].
Qed.

Lemma fold_max2_zero (n : nat) :
  fold_left max2 (List.repeat (ofZ 0) n) (ofZ 0) = ofZ 0.
Proof.
  induction n as [ | n IH]; cbn [List.repeat fold_left]; [reflexivity |].
  change (max2 (ofZ 0) (ofZ 0)) with (ofZ 0). assumption.
Qed.

(** The greatest of one or more zeros is zero. *)
Lemma Math_max_zeros (n : nat) :
  (0 < n)%nat -> Math_max (List.repeat (ofZ 0) n) = ofZ 0.
Proof.
  destruct n as [ | n]; [lia | intros _].
  unfold Math_max. cbn [List.repeat fold_left].
  change (max2 NInf (ofZ 0)) with (ofZ 0). apply fold_max2_zero.
Qed.

Lemma numberAt_zeros (n i : nat) :
  (i < n)%nat -> numberAt (List.repeat (ofZ 0) n) i = ofZ 0.
Proof.
  intros Hi. unfold numberAt. apply nth_repeat_lt. assumption.
Qed.

(** The scale of a series of zeros: the height of the graph over one. *)
Lemma drawGraph_scale_zeros (canvas : canvasSize) (n : nat) :
  (0 < n)%nat -> (0 <= height canvas < 2 ^ 32)%Z ->
  drawGraph_scale canvas (List.repeat (ofZ 0) n) = ofZ (height canvas - 70).
Proof.
  intros Hn Hh. unfold drawGraph_scale, topPadding, bottomPadding.
  rewrite Math_max_zeros by assumption.
  change (scaleDivisor (ofZ 0)) with (ofZ 1).
  rewrite !sub_int, div_one by lia. f_equal. lia.
Qed.

(** A property of every call made so far is kept by the loop over the
    bars when the calls of each bar have it. *)
Lemma drawBars_Forall (P : canvasOp -> Prop) (canvas : canvasSize)
    (dataValues : list number) (labels : list string)
    (barColors : list (option string)) (barWidth scale : number) (n : nat) :
  (forall i xOffset, (i < n)%nat ->
     Forall P (barCalls canvas dataValues labels barColors barWidth scale
                        i xOffset)) ->
  forall count from ops xOffset,
    (from + count <= n)%nat -> Forall P ops ->
    Forall P (fst (forFrom from count
                     (drawBar canvas dataValues labels barColors barWidth scale)
                     (ops, xOffset))).
Proof.
  intros Hbar count.
  induction count as [ | count IH]; intros from ops xOffset Hle Hops;
    cbn [forFrom].
  - assumption.
  - unfold drawBar at 2. apply IH; [lia |].
    apply Forall_app. split; [assumption | apply Hbar; lia].
Qed.

End GeometryFacts.

(** Calls that are flat by their shape alone. *)
Ltac flat_calls :=
  repeat (apply Forall_cons || apply Forall_nil); cbn [flatBar];
  try exact I; solve [left; reflexivity | right; reflexivity].

(** C7: the divisor of the scale is the greatest value when that is
    positive and 1 otherwise, so it is never zero.  A series of [n > 0]
    zeros gives every bar the height 0: the only rectangle [drawGraph]
    fills with another height is the background.  An empty series gives no
    bar and no exception: [drawGraph] returns after painting the
    background. *)
Theorem zero_series_draws_flat_bars (argumentLimit : nat)
    (canvas : canvasSize) (ui : controls) (labels : list string) (n : nat) :
  (0 < n)%nat -> (0 <= height canvas < 2 ^ 32)%Z ->
  let zeros := List.repeat (ofZ 0) n in
  (forall dataValues,
     exists divisor,
       divisor = (if gt (Math_max dataValues) (ofZ 0)
                  then Math_max dataValues else ofZ 1) /\
       gt divisor (ofZ 0) = true /\
       drawGraph_scale canvas dataValues
       = div (sub (sub (ofZ (height canvas)) topPadding) bottomPadding)
             divisor) /\
  (forall i, (i < n)%nat ->
     mul (numberAt zeros i) (drawGraph_scale canvas zeros) = ofZ 0) /\
  Forall (flatBar canvas)
         (fst (drawGraph argumentLimit canvas ui zeros labels)) /\
  drawGraph argumentLimit canvas ui [] labels
  = (drawBackground canvas, Normal tt).
Proof.
  intros Hn Hh zeros.
  assert (Hbar : forall i, (i < n)%nat ->
            mul (numberAt zeros i) (drawGraph_scale canvas zeros) = ofZ 0).
  { intros i Hi. unfold zeros.
    rewrite GeometryFacts.numberAt_zeros by assumption.
    rewrite GeometryFacts.drawGraph_scale_zeros by assumption.
    apply JSFacts.mul_zero_finite. }
  split; [| split; [assumption | split; [| reflexivity]]].
  - intros dataValues. eexists. split; [reflexivity |]. split.
    + apply (GeometryFacts.scaleDivisor_positive (Math_max dataValues)).
    + reflexivity.
  - assert (Hbg : Forall (flatBar canvas) (drawBackground canvas)).
    { unfold drawBackground. flat_calls. }
    unfold drawGraph.
    assert (Hlen : List.length zeros = n) by apply repeat_length.
    rewrite Hlen.
    destruct (Nat.eqb_spec n 0) as [E | _]; [lia |].
    destruct (spread argumentLimit Math_max zeros) as [maxValue | e];
      [| assumption].
    destruct (generateColors ui n) as [barColors | e]; [| assumption].
    destruct (forLoop n _ _) as [ops xOffset] eqn:E. cbn [fst].
    apply Forall_app. split.
    + change ops with (fst (ops, xOffset)). rewrite <- E. unfold forLoop.
      apply (GeometryFacts.drawBars_Forall _ _ _ _ _ _ _ n); [| lia | assumption].
      intros i x Hi. unfold barCalls. rewrite (Hbar i Hi).
      apply Forall_app. split.
      * flat_calls.
      * destruct (nth_error labels i); flat_calls.
    + unfold drawAxes. flat_calls.
Qed.

Lemma zero_series_draws_flat_bars_witness :
  (0 < 3)%nat /\ (0 <= height defaultCanvas < 2 ^ 32)%Z /\
  (let zeros := List.repeat (ofZ 0) 3 in
   (forall dataValues,
      exists divisor,
        divisor = (if gt (Math_max dataValues) (ofZ 0)
                   then Math_max dataValues else ofZ 1) /\
        gt divisor (ofZ 0) = true /\
        drawGraph_scale defaultCanvas dataValues
        = div (sub (sub (ofZ (height defaultCanvas)) topPadding) bottomPadding)
              divisor) /\
   (forall i, (i < 3)%nat ->
      mul (numberAt zeros i) (drawGraph_scale defaultCanvas zeros) = ofZ 0) /\
   Forall (flatBar defaultCanvas)
          (fst (drawGraph 3 defaultCanvas blueBars zeros ["A"; "B"; "C"])) /\
   drawGraph 3 defaultCanvas blueBars [] ["A"; "B"; "C"]
   = (drawBackground defaultCanvas, Normal tt)).
Proof.
  split; [lia | split; [vm_compute; split; [discriminate | reflexivity] |]].
  apply (zero_series_draws_flat_bars 3 defaultCanvas blueBars
           ["A"; "B"; "C"] 3);
    [lia | vm_compute; split; [discriminate | reflexivity]].
Defined.

(** ** The two renderers *)

Module RendererFacts.

(** On the default canvas both renderers use the same scale. *)
Lemma scales_agree (dataValues : list number) :
  drawGraph_scale defaultCanvas dataValues = exportSVG_scale dataValues.
Proof.
  reflexivity.
Qed.

(** Up to 70 bars the width left for the bars is positive and both
    renderers give a bar the same width. *)
Lemma barWidths_agree (numBars : nat) :
  (1 <= numBars <= 70)%nat ->
  drawGraph_barWidth defaultCanvas numBars = exportSVG_barWidth numBars.
Proof.
  intros [Hlo Hhi].
  do 71 (destruct numBars as [ | numBars];
         [first [lia | vm_compute; reflexivity] |]).
  lia.
Qed.

End RendererFacts.

(** C1: with 71 values, on an engine that takes 71 arguments in a call, no
    width is left for the bars.  [drawGraph] then raises the width of a bar
    to 1 (line 261) and places the bars 11 apart; [exportSVG] has no such
    line, writes rectangles of width 0 and places them 10 apart.  The two
    renderers disagree on this series. *)
Theorem renderers_diverge_at_71_bars (argumentLimit : nat) :
  (71 <= argumentLimit)%nat ->
  let values := List.repeat (ofZ 1) 71 in
  let names := List.repeat "x" 71 in
  fst (parseInputValues (commaList "1" 71) (commaList "x" 71))
  = {| dataValues := values; labels := names; hasError := false |} /\
  drawGraph_barWidth defaultCanvas 71 = ofZ 1 /\
  exportSVG_barWidth 71 = ofZ 0 /\
  nth_error (fst (drawGraph argumentLimit defaultCanvas blueBars values names))
            4
  = Some (fillRect (ofZ 30) (ofZ 30) (ofZ 1) (ofZ 330)) /\
  nth_error (fst (drawGraph argumentLimit defaultCanvas blueBars values names))
            11
  = Some (fillRect (ofZ 41) (ofZ 30) (ofZ 1) (ofZ 330)) /\
  exists rest,
    exportSVG argumentLimit blueBars (commaList "1" 71) (commaList "x" 71)
    = Normal (Some (svgOpening ++ svgBackground
                    ++ svgRect (ofZ 30) (ofZ 30) (ofZ 0) (ofZ 330)
                               (Some "#3498db")
                    ++ svgLabel (ofZ 30) (ofZ 380) "x"
                    ++ svgRect (ofZ 40) (ofZ 30) (ofZ 0) (ofZ 330)
                               (Some "#3498db")
                    ++ rest)).
Proof.
  intros Hlimit. cbv zeta.
  rewrite (SpreadFacts.drawGraph_within argumentLimit)
    by (rewrite repeat_length; exact Hlimit).
  rewrite (SpreadFacts.exportSVG_within argumentLimit)
    by (vm_compute; apply Nat.leb_le; apply Nat.leb_le in Hlimit;
        exact Hlimit).
  repeat split; try (vm_compute; reflexivity).
  eexists. vm_compute. reflexivity.
Qed.

Lemma renderers_diverge_at_71_bars_witness :
  (71 <= 100)%nat /\
  (let values := List.repeat (ofZ 1) 71 in
   let names := List.repeat "x" 71 in
   fst (parseInputValues (commaList "1" 71) (commaList "x" 71))
   = {| dataValues := values; labels := names; hasError := false |} /\
   drawGraph_barWidth defaultCanvas 71 = ofZ 1 /\
   exportSVG_barWidth 71 = ofZ 0 /\
   nth_error (fst (drawGraph 100 defaultCanvas blueBars values names)) 4
   = Some (fillRect (ofZ 30) (ofZ 30) (ofZ 1) (ofZ 330)) /\
   nth_error (fst (drawGraph 100 defaultCanvas blueBars values names)) 11
   = Some (fillRect (ofZ 41) (ofZ 30) (ofZ 1) (ofZ 330)) /\
   exists rest,
     exportSVG 100 blueBars (commaList "1" 71) (commaList "x" 71)
     = Normal (Some (svgOpening ++ svgBackground
                     ++ svgRect (ofZ 30) (ofZ 30) (ofZ 0) (ofZ 330)
                                (Some "#3498db")
                     ++ svgLabel (ofZ 30) (ofZ 380) "x"
                     ++ svgRect (ofZ 40) (ofZ 30) (ofZ 0) (ofZ 330)
                                (Some "#3498db")
                     ++ rest))).
Proof.
  split; [lia |].
  apply (renderers_diverge_at_71_bars 100). lia.
Defined.

(** ** Further properties of the colour generators *)

Module ColorMoreFacts.
Import JSFacts LoopFacts.

Lemma hexBody_cases (hex : string) :
  hex = hexBody hex \/ hex = String "#" (hexBody hex).
Proof.
  destruct hex as [ | c t]; [left; reflexivity |].
  destruct c as [[] [] [] [] [] [] [] []];
    first [right; reflexivity | left; reflexivity].
Qed.

Lemma hexBody_hex (c : ascii) (t : string) :
  Str.isHexDigit c = true -> hexBody (String c t) = String c t.
Proof.
  destruct c as [[] [] [] [] [] [] [] []]; intros H;
    first [reflexivity | discriminate H].
Qed.

Lemma hexToRgb_body (hex : string) :
  hexToRgb hex
  = if (String.length (hexBody hex) =? 6)%nat
       && Str.forallb Str.isHexDigit (hexBody hex)
    then Some {| r := parseInt16 (substring 0 2 (hexBody hex));
                 g := parseInt16 (substring 2 2 (hexBody hex));
                 b := parseInt16 (substring 4 2 (hexBody hex)) |}
    else None.
Proof.
  reflexivity.
Qed.

(** The gradient, case by case: nothing for no step, a TypeError when a
    colour is rejected, one colour per step otherwise. *)
Lemma generateGradientColors_cases (color1 color2 : string) (steps : nat) :
  generateGradientColors color1 color2 steps
  = match steps, hexToRgb color1, hexToRgb color2 with
    | O, _, _ => Normal []
    | S _, Some c1, Some c2 =>
        Normal (map (fun i => Some (rgbString (channelAt r c1 c2 steps i)
                                              (channelAt g c1 c2 steps i)
                                              (channelAt b c1 c2 steps i)))
                    (seq 0 steps))
    | S _, _, _ => Throw typeError
    end.
Proof.
  destruct steps as [ | n]; [reflexivity |].
  destruct (hexToRgb color1) as [c1 | ] eqn:E1;
    destruct (hexToRgb color2) as [c2 | ] eqn:E2.
  - apply GradientFacts.generateGradientColors_map; assumption.
  - unfold generateGradientColors, forLoopM. rewrite E1, E2. reflexivity.
  - unfold generateGradientColors, forLoopM. rewrite E1. reflexivity.
  - unfold generateGradientColors, forLoopM. rewrite E1. reflexivity.
Qed.

Lemma Forall_defined_map {A : Type} (f : A -> string) (l : list A) :
  Forall (fun c : option string => c <> None) (map (fun x => Some (f x)) l).
Proof.
  apply Forall_forall. intros c Hin. apply in_map_iff in Hin.
  destruct Hin as (x & <- & _). discriminate.
Qed.

Lemma Forall_defined_repeat (s : string) (n : nat) :
  Forall (fun c : option string => c <> None) (List.repeat (Some s) n).
Proof.
  apply Forall_forall. intros c Hin. apply repeat_spec in Hin.
  subst c. discriminate.
Qed.

Lemma custom_colors_defined (palette : list string) (count : nat) :
  (1 <= List.length palette)%nat ->
  Forall (fun c : option string => c <> None)
         (map (atModulo palette) (seq 0 count)).
Proof.
  intros Hlen. apply Forall_forall. intros c Hin.
  apply in_map_iff in Hin. destruct Hin as (i & <- & _).
  destruct (ColorFacts.atModulo_defined palette i Hlen) as (color & _ & ->).
  discriminate.
Qed.

End ColorMoreFacts.

(** X1: [hexToRgb] accepts exactly the texts made of six hexadecimal
    digits, with or without one [#] before them, and everything it accepts
    has three integer channels between 0 and 255; shorthand colours, colour
    names and any other text give [null]. *)
Theorem hexToRgb_accepts (hex : string) :
  (hexToRgb hex <> None <->
   exists body,
     (hex = body \/ hex = String "#" body) /\
     String.length body = 6%nat /\
     Str.forallb Str.isHexDigit body = true) /\
  (forall c, hexToRgb hex = Some c ->
   exists zr zg zb,
     (0 <= zr <= 255)%Z /\ (0 <= zg <= 255)%Z /\ (0 <= zb <= 255)%Z /\
     c = {| r := ofZ zr; g := ofZ zg; b := ofZ zb |}).
Proof.
  split; [| apply GradientFacts.hexToRgb_channels].
  rewrite ColorMoreFacts.hexToRgb_body. split.
  - intros H. exists (hexBody hex).
    split; [apply ColorMoreFacts.hexBody_cases |].
    destruct ((String.length _ =? 6)%nat && _) eqn:E; [| contradiction].
    apply andb_true_iff in E. destruct E as [Hlen Hhex].
    apply Nat.eqb_eq in Hlen. split; assumption.
  - intros (body & [-> | ->] & Hlen & Hhex).
    + destruct body as [ | c t]; [discriminate Hlen |].
      pose proof Hhex as Hc. cbn [Str.forallb] in Hc.
      apply andb_true_iff in Hc. destruct Hc as [Hc _].
      rewrite (ColorMoreFacts.hexBody_hex c t Hc).
      apply Nat.eqb_eq in Hlen. rewrite Hlen, Hhex. discriminate.
    + change (hexBody (String "#" body)) with body.
      apply Nat.eqb_eq in Hlen. rewrite Hlen, Hhex. discriminate.
Qed.

(** X2: whatever the mode, when [generateColors] completes normally it
    returns exactly [count] colours and none of them is [undefined]. *)
Theorem generateColors_length (ui : controls) (count : nat)
    (colors : list (option string)) :
  generateColors ui count = Normal colors ->
  List.length colors = count /\
  Forall (fun c => c <> None) colors.
Proof.
  unfold generateColors.
  destruct (String.eqb (colorMode ui) "single").
  { intros H. injection H as <-. split;
      [apply repeat_length | apply ColorMoreFacts.Forall_defined_repeat]. }
  destruct (String.eqb (colorMode ui) "gradient").
  { rewrite ColorMoreFacts.generateGradientColors_cases.
    destruct count as [ | n].
    - intros H. injection H as <-. split; [reflexivity | constructor].
    - destruct (hexToRgb (primaryColor ui)) as [c1 | ];
        [destruct (hexToRgb (secondaryColor ui)) as [c2 | ] |];
        intros H; try discriminate H.
      injection H as <-. split.
      + change (List.length (map (fun i => Some (rgbString (channelAt r c1 c2 (S n) i)
                                     (channelAt g c1 c2 (S n) i)
                                     (channelAt b c1 c2 (S n) i))) (seq 0 (S n))) = S n).
        rewrite length_map, length_seq. reflexivity.
      + exact (ColorMoreFacts.Forall_defined_map
                 (fun i => rgbString (channelAt r c1 c2 (S n) i)
                                     (channelAt g c1 c2 (S n) i)
                                     (channelAt b c1 c2 (S n) i))
                 (seq 0 (S n))). }
  destruct (String.eqb (colorMode ui) "rainbow").
  { intros H. injection H as <-.
    rewrite ColorFacts.generateRainbowColors_map. split.
    - rewrite length_map, length_seq. reflexivity.
    - apply (ColorMoreFacts.Forall_defined_map
               (fun i => hslString (rainbowHue count i))). }
  destruct (String.eqb (colorMode ui) "custom").
  { set (palette := map Str.trim (Str.split (customColors ui))).
    assert (Hlen : (1 <= List.length palette)%nat).
    { unfold palette. rewrite length_map. apply ColorFacts.split_nonempty. }
    destruct (Nat.leb_spec count (List.length palette)) as [Hle | Hgt];
      intros H; injection H as <-.
    - split.
      + rewrite length_map, length_firstn. lia.
      + apply Forall_forall. intros c Hin. apply in_map_iff in Hin.
        destruct Hin as (x & <- & _). discriminate.
    - rewrite LoopFacts.forLoop_push. split.
      + rewrite length_map, length_seq. reflexivity.
      + apply ColorMoreFacts.custom_colors_defined. assumption. }
  intros H. injection H as <-. split;
    [apply repeat_length | apply ColorMoreFacts.Forall_defined_repeat].
Qed.

Lemma generateColors_length_witness :
  generateColors twoColours 3
  = Normal [Some "#ff0000"; Some "#00ff00"; Some "#ff0000"] /\
  (List.length [Some "#ff0000"; Some "#00ff00"; Some "#ff0000"] = 3%nat /\
   Forall (fun c : option string => c <> None)
          [Some "#ff0000"; Some "#00ff00"; Some "#ff0000"]).
Proof.
  split.
  - vm_compute. reflexivity.
  - apply (generateColors_length twoColours 3). vm_compute. reflexivity.
Defined.

(** X3: [generateColors] raises in one situation only: in gradient mode,
    for at least one colour to produce, when the primary or the secondary
    colour is not a six-digit hexadecimal colour. *)
Theorem generateColors_throws_iff (ui : controls) (count : nat) :
  (exists e, generateColors ui count = Throw e) <->
  colorMode ui = "gradient" /\ (0 < count)%nat /\
  (hexToRgb (primaryColor ui) = None \/ hexToRgb (secondaryColor ui) = None).
Proof.
  unfold generateColors.
  destruct (String.eqb_spec (colorMode ui) "single") as [E | _].
  { rewrite E. split; [intros [e H]; discriminate H |].
    intros (H & _). discriminate H. }
  destruct (String.eqb_spec (colorMode ui) "gradient") as [E | N].
  { rewrite ColorMoreFacts.generateGradientColors_cases.
    destruct count as [ | n].
    - split; [intros [e H]; discriminate H | intros (_ & H & _); lia].
    - destruct (hexToRgb (primaryColor ui)) as [c1 | ];
        [destruct (hexToRgb (secondaryColor ui)) as [c2 | ] |].
      + split; [intros [e H]; discriminate H |].
        intros (_ & _ & [H | H]); discriminate H.
      + split; [intros _ | intros _; eexists; reflexivity].
        repeat split; [assumption | lia | right; reflexivity].
      + split; [intros _ | intros _; eexists; reflexivity].
        repeat split; [assumption | lia | left; reflexivity]. }
  split; [| intros (H & _); contradiction].
  intros [e H].
  destruct (String.eqb (colorMode ui) "rainbow"); [discriminate H |].
  destruct (String.eqb (colorMode ui) "custom"); [| discriminate H].
  destruct (_ <=? _)%nat; discriminate H.
Qed.

(** X4: a gradient starts at the primary colour: for one step or more,
    the first colour has exactly the channels of the first colour given. *)
Theorem gradient_starts_at_primary (color1 color2 : string) (c1 c2 : rgb)
    (steps : nat) :
  hexToRgb color1 = Some c1 -> hexToRgb color2 = Some c2 ->
  (0 < steps)%nat -> (Z.of_nat steps < 2 ^ 32)%Z ->
  exists colors,
    generateGradientColors color1 color2 steps = Normal colors /\
    nth_error colors 0 = Some (Some (rgbString (r c1) (g c1) (b c1))).
Proof.
  intros E1 E2 Hs Hb.
  destruct (GradientFacts.hexToRgb_channels _ _ E1)
    as (r1 & g1 & b1 & Hr1 & Hg1 & Hb1 & ->).
  destruct (GradientFacts.hexToRgb_channels _ _ E2)
    as (r2 & g2 & b2 & Hr2 & Hg2 & Hb2 & ->).
  eexists. split;
    [apply (GradientFacts.generateGradientColors_map _ _ _ _ _ E1 E2) |].
  rewrite LoopFacts.nth_error_map_seq by assumption.
  assert (Hratio : gradientRatio steps 0 = ofZ 0).
  { unfold gradientRatio.
    destruct (Nat.eqb_spec steps 1) as [ | Hne]; [reflexivity |].
    unfold ofNat. rewrite JSFacts.sub_int by lia.
    unfold div, ofZ. rewrite JSFacts.isZero_ofZ.
    destruct (Z.eqb_spec (Z.of_nat steps - 1) 0); [lia |].
    rewrite (JSFacts.round64_comp _ 0); [reflexivity |].
    unfold Qdiv. apply Qmult_0_l. }
  unfold channelAt. rewrite Hratio. cbn [r g b].
  rewrite !JSFacts.sub_int, !JSFacts.mul_int, !JSFacts.add_int,
    !JSFacts.Math_round_int by lia.
  do 3 f_equal; f_equal; lia.
Qed.

Lemma gradient_starts_at_primary_witness :
  hexToRgb "#ff0000" = Some red /\ hexToRgb "#0000ff" = Some blue /\
  (0 < 5)%nat /\ (Z.of_nat 5 < 2 ^ 32)%Z /\
  exists colors,
    generateGradientColors "#ff0000" "#0000ff" 5 = Normal colors /\
    nth_error colors 0 = Some (Some (rgbString (r red) (g red) (b red))).
Proof.
  split; [reflexivity | split; [reflexivity | split; [lia | split]]].
  - vm_compute. reflexivity.
  - apply (gradient_starts_at_primary "#ff0000" "#0000ff" red blue 5);
      [reflexivity | reflexivity | lia | vm_compute; reflexivity].
Defined.

(** ** Further properties of the parser *)

Module SplitFacts.

Lemma split_length (s : string) :
  List.length (Str.split s) = S (countCommas s).
Proof.
  induction s as [ | c s IH]; cbn [Str.split countCommas]; [reflexivity |].
  destruct (Ascii.eqb c ","); cbn [List.length]; [rewrite IH; reflexivity |].
  destruct (Str.split s) as [ | t ts]; [discriminate IH |].
  cbn [List.length] in *. lia.
Qed.

(** A token without comma, then a comma: the token is split off. *)
Lemma split_token_comma (t rest : string) :
  commaFree t = true ->
  Str.split (t ++ String "," rest) = t :: Str.split rest.
Proof.
  induction t as [ | c t IH]; intros Hfree.
  - reflexivity.
  - cbn [commaFree Str.forallb] in Hfree.
    apply andb_true_iff in Hfree. destruct Hfree as [Hc Hfree].
    apply negb_true_iff in Hc.
    cbn [append Str.split]. rewrite Hc, (IH Hfree). reflexivity.
Qed.

Lemma split_token (t : string) : commaFree t = true -> Str.split t = [t].
Proof.
  induction t as [ | c t IH]; intros Hfree; [reflexivity |].
  cbn [commaFree Str.forallb] in Hfree.
  apply andb_true_iff in Hfree. destruct Hfree as [Hc Hfree].
  apply negb_true_iff in Hc.
  cbn [Str.split]. rewrite Hc, (IH Hfree). reflexivity.
Qed.

(** Tokens without commas, joined by commas and split again. *)
Lemma split_concat (tokens : list string) :
  tokens <> [] ->
  Forall (fun t => commaFree t = true) tokens ->
  Str.split (String.concat "," tokens) = tokens.
Proof.
  induction tokens as [ | t ts IH]; intros Hne Hfree; [contradiction |].
  inversion Hfree as [ | ? ? Ht Hts]; subst.
  destruct ts as [ | t' ts].
  - apply split_token. assumption.
  - change (String.concat "," (t :: t' :: ts))
      with (t ++ String "," (String.concat "," (t' :: ts))).
    rewrite split_token_comma by assumption.
    rewrite IH; [reflexivity | discriminate | assumption].
Qed.

Lemma trimEnd_idempotent (s : string) :
  Str.trimEnd (Str.trimEnd s) = Str.trimEnd s.
Proof.
  induction s as [ | c s IH]; [reflexivity |].
  cbn [Str.trimEnd].
  destruct (Str.isWhiteSpace c && Str.isEmpty (Str.trimEnd s)) eqn:E;
    [reflexivity |].
  cbn [Str.trimEnd]. rewrite IH, E. reflexivity.
Qed.

Lemma trimStart_head (s : string) :
  Str.trimStart s = "" \/
  exists c r, Str.trimStart s = String c r /\ Str.isWhiteSpace c = false.
Proof.
  unfold Str.trimStart.
  induction s as [ | c s IH]; [left; reflexivity |].
  cbn [Str.dropWhile]. destruct (Str.isWhiteSpace c) eqn:E; [assumption |].
  right. exists c, s. split; [reflexivity | assumption].
Qed.

Lemma trimEnd_cons (c : ascii) (r : string) :
  Str.isWhiteSpace c = false ->
  Str.trimEnd (String c r) = String c (Str.trimEnd r).
Proof.
  intros Hc. cbn [Str.trimEnd]. rewrite Hc. reflexivity.
Qed.

Lemma trimStart_cons (c : ascii) (r : string) :
  Str.isWhiteSpace c = false -> Str.trimStart (String c r) = String c r.
Proof.
  intros Hc. unfold Str.trimStart. cbn [Str.dropWhile]. rewrite Hc. reflexivity.
Qed.

(** Trimming twice is trimming once. *)
Lemma trim_idempotent (s : string) : Str.trim (Str.trim s) = Str.trim s.
Proof.
  unfold Str.trim.
  destruct (trimStart_head s) as [-> | (c & r & -> & Hc)]; [reflexivity |].
  rewrite (trimEnd_cons c r Hc), (trimStart_cons c _ Hc).
  rewrite <- (trimEnd_cons c r Hc). apply trimEnd_idempotent.
Qed.

End SplitFacts.

Module LabelFacts.
Import SplitFacts.

Lemma forallb_dropWhile (p q : ascii -> bool) (s : string) :
  Str.forallb p s = true -> Str.forallb p (Str.dropWhile q s) = true.
Proof.
  induction s as [ | c s IH]; intros H; [reflexivity |].
  cbn [Str.dropWhile]. destruct (q c); [| assumption].
  cbn [Str.forallb] in H. apply andb_true_iff in H. apply IH. apply H.
Qed.

Lemma forallb_trimEnd (p : ascii -> bool) (s : string) :
  Str.forallb p s = true -> Str.forallb p (Str.trimEnd s) = true.
Proof.
  induction s as [ | c s IH]; intros H; [reflexivity |].
  cbn [Str.forallb] in H. apply andb_true_iff in H. destruct H as [Hc Hs].
  cbn [Str.trimEnd].
  destruct (Str.isWhiteSpace c && Str.isEmpty (Str.trimEnd s)); [reflexivity |].
  cbn [Str.forallb]. rewrite Hc, (IH Hs). reflexivity.
Qed.

Lemma commaFree_trim (s : string) :
  commaFree s = true -> commaFree (Str.trim s) = true.
Proof.
  intros H. unfold commaFree, Str.trim, Str.trimStart.
  apply forallb_trimEnd, forallb_dropWhile. assumption.
Qed.

Lemma split_commaFree (s : string) :
  Forall (fun t => commaFree t = true) (Str.split s).
Proof.
  induction s as [ | c s IH]; cbn [Str.split].
  - repeat constructor.
  - destruct (Ascii.eqb c ",") eqn:E.
    + constructor; [reflexivity | assumption].
    + destruct (Str.split s) as [ | t ts]; [repeat constructor; cbn; rewrite E; reflexivity |].
      inversion IH as [ | ? ? Ht Hts]; subst.
      constructor; [| assumption].
      cbn [commaFree Str.forallb]. rewrite E. assumption.
Qed.

End LabelFacts.

(** X5: a parse that succeeds has at least one value: the labels text
    always gives one label or more, so a values text without any number,
    the empty one included, is always reported as a mismatch. *)
Theorem parse_success_is_not_empty (valueText labelText : string) :
  hasError (fst (parseInputValues valueText labelText)) = false ->
  (1 <= List.length (dataValues (fst (parseInputValues valueText labelText))))%nat.
Proof.
  destruct (Nat.eq_dec (List.length (parseValues valueText))
                       (List.length (parseLabels labelText))) as [E | N].
  - rewrite (ParserFacts.parseInputValues_equal _ _ E).
    cbn [fst dataValues hasError]. intros _. rewrite E.
    unfold parseLabels. rewrite length_map. apply ColorFacts.split_nonempty.
  - rewrite (ParserFacts.parseInputValues_differ _ _ N).
    cbn [fst hasError errorResult]. discriminate.
Qed.

Lemma parse_success_is_not_empty_witness :
  hasError (fst (parseInputValues "7" "A")) = false /\
  (1 <= List.length (dataValues (fst (parseInputValues "7" "A"))))%nat.
Proof.
  split.
  - vm_compute. reflexivity.
  - apply (parse_success_is_not_empty "7" "A"). vm_compute. reflexivity.
Defined.

(** X6: a labels text with [k] commas gives exactly [k + 1] labels, empty
    ones included, and a values text with [k] commas gives at most [k + 1]
    values. *)
Theorem parse_counts (text : string) :
  List.length (parseLabels text) = S (countCommas text) /\
  (List.length (parseValues text) <= S (countCommas text))%nat.
Proof.
  split.
  - unfold parseLabels. rewrite length_map. apply SplitFacts.split_length.
  - unfold parseValues. rewrite length_map.
    eapply Nat.le_trans; [apply filter_length_le |].
    rewrite length_map, SplitFacts.split_length. apply Nat.le_refl.
Qed.

(** X7: every label that the parser returns is trimmed and holds no
    comma. *)
Theorem labels_are_trimmed (labelText : string) :
  Forall (fun label => Str.trim label = label /\ commaFree label = true)
         (parseLabels labelText).
Proof.
  unfold parseLabels. apply Forall_forall. intros label Hin.
  apply in_map_iff in Hin. destruct Hin as (t & <- & Hin). split.
  - apply SplitFacts.trim_idempotent.
  - apply LabelFacts.commaFree_trim.
    pose proof (LabelFacts.split_commaFree labelText) as H.
    rewrite Forall_forall in H. apply H. assumption.
Qed.

(** X8: labels that are trimmed and hold no comma, joined by commas, come
    back from the parser as they are, in order. *)
Theorem labels_round_trip (tokens : list string) :
  tokens <> [] ->
  Forall (fun t => Str.trim t = t /\ commaFree t = true) tokens ->
  parseLabels (String.concat "," tokens) = tokens.
Proof.
  intros Hne Hall. unfold parseLabels.
  rewrite SplitFacts.split_concat; [| assumption |].
  - induction Hall as [ | t ts [Ht _] _ IH]; [reflexivity |].
    cbn [map]. rewrite Ht. f_equal.
    destruct ts as [ | t' ts']; [reflexivity | apply IH; discriminate].
  - apply Forall_impl with (2 := Hall). intros t [_ H]. exact H.
Qed.

Lemma labels_round_trip_witness :
  ["Q1"; "North east"; ""] <> [] /\
  Forall (fun t => Str.trim t = t /\ commaFree t = true)
         ["Q1"; "North east"; ""] /\
  parseLabels (String.concat "," ["Q1"; "North east"; ""])
  = ["Q1"; "North east"; ""].
Proof.
  split; [discriminate | split].
  - repeat constructor.
  - apply (labels_round_trip ["Q1"; "North east"; ""]);
      [discriminate | repeat constructor].
Defined.

(** ** Decimal numerals *)

Module NumeralFacts.
Import JSFacts.

Lemma digitsValue_acc (d : Decimal.uint) (acc : positive) :
  Str.digitsValue (Zpos acc) (NilEmpty.string_of_uint d)
  = Zpos (Pos.of_uint_acc d acc).
Proof.
  revert acc. induction d as [ | d IH | d IH | d IH | d IH | d IH | d IH
                               | d IH | d IH | d IH | d IH]; intros acc;
    cbn [NilEmpty.string_of_uint Str.digitsValue Pos.of_uint_acc];
    [reflexivity | ..];
    rewrite <- IH; f_equal;
    match goal with
    | |- context [Str.digitValue ?c] =>
        let v := eval vm_compute in (Str.digitValue c) in
        change (Str.digitValue c) with v
    end; lia.
Qed.

Lemma digitsValue_of_uint (d : Decimal.uint) :
  Str.digitsValue 0 (NilEmpty.string_of_uint d) = Z.of_N (Pos.of_uint d).
Proof.
  induction d as [ | d IH | d IH | d IH | d IH | d IH | d IH
                   | d IH | d IH | d IH | d IH];
    cbn [NilEmpty.string_of_uint Str.digitsValue Pos.of_uint];
    [reflexivity | exact IH | ..];
    match goal with
    | |- _ = Z.of_N (N.pos (Pos.of_uint_acc d ?k)) =>
        exact (digitsValue_acc d k)
    end.
Qed.

Lemma string_of_uint_digits (d : Decimal.uint) :
  Str.forallb Str.isDigit (NilEmpty.string_of_uint d) = true.
Proof.
  induction d; cbn [NilEmpty.string_of_uint Str.forallb]; try reflexivity;
    rewrite IHd; reflexivity.
Qed.

Lemma to_uint_nonnil (n : N) : N.to_uint n <> Decimal.Nil.
Proof.
  destruct n as [ | p]; [discriminate | apply DecimalPos.Unsigned.to_uint_nonnil].
Qed.

Lemma ofDigits_NilEmpty (z : Z) :
  Str.ofDigits z = NilEmpty.string_of_uint (N.to_uint (Z.to_N z)).
Proof.
  unfold Str.ofDigits, NilZero.string_of_uint.
  pose proof (to_uint_nonnil (Z.to_N z)) as H.
  destruct (N.to_uint (Z.to_N z)); [contradiction | reflexivity ..].
Qed.

(** A decimal numeral holds digits only, at least one, and its value is
    the number it was written from. *)
Lemma ofDigits_spec (z : Z) :
  (0 <= z)%Z ->
  Str.forallb Str.isDigit (Str.ofDigits z) = true /\
  Str.ofDigits z <> "" /\
  Str.digitsValue 0 (Str.ofDigits z) = z.
Proof.
  intros Hz. rewrite ofDigits_NilEmpty. repeat split.
  - apply string_of_uint_digits.
  - pose proof (to_uint_nonnil (Z.to_N z)) as H.
    destruct (N.to_uint (Z.to_N z)); [contradiction | discriminate ..].
  - rewrite digitsValue_of_uint.
    change (Pos.of_uint (N.to_uint (Z.to_N z)))
      with (N.of_uint (N.to_uint (Z.to_N z))).
    rewrite DecimalN.Unsigned.of_to. apply Z2N.id. assumption.
Qed.

End NumeralFacts.

Module ParseFloatFacts.
Import JSFacts.

Lemma takeWhile_all (p : ascii -> bool) (s : string) :
  Str.forallb p s = true -> Str.takeWhile p s = s.
Proof.
  induction s as [ | c s IH]; intros H; [reflexivity |].
  cbn [Str.forallb] in H. apply andb_true_iff in H. destruct H as [Hc Hs].
  cbn [Str.takeWhile]. rewrite Hc, (IH Hs). reflexivity.
Qed.

Lemma dropWhile_all (p : ascii -> bool) (s : string) :
  Str.forallb p s = true -> Str.dropWhile p s = "".
Proof.
  induction s as [ | c s IH]; intros H; [reflexivity |].
  cbn [Str.forallb] in H. apply andb_true_iff in H. destruct H as [Hc Hs].
  cbn [Str.dropWhile]. rewrite Hc. apply IH. assumption.
Qed.

Lemma append_empty (s : string) : s ++ "" = s.
Proof.
  induction s as [ | c s IH]; [reflexivity |]. cbn [append]. rewrite IH. reflexivity.
Qed.

(** [parseFloat] of one digit or more, and nothing else, is the number
    the digits denote, rounded. *)
Lemma parseFloat_digits (s : string) :
  s <> "" -> Str.forallb Str.isDigit s = true ->
  parseFloat s = round64 (inject_Z (Str.digitsValue 0 s)).
Proof.
  intros Hne H. destruct s as [ | c r]; [contradiction |].
  pose proof (takeWhile_all _ _ H) as Ht.
  pose proof (dropWhile_all _ _ H) as Hd.
  cbn [Str.forallb] in H. apply andb_true_iff in H. destruct H as [Hc Hr].
  destruct c as [[] [] [] [] [] [] [] []]; try discriminate Hc;
    unfold parseFloat;
    match goal with
    | |- context [Str.trimStart ?x] => change (Str.trimStart x) with x
    end;
    cbv beta iota zeta;
    match goal with
    | |- context [Str.stripPrefix ?p ?x] => change (Str.stripPrefix p x) with (@None string)
    end;
    cbv beta iota zeta; rewrite Ht, Hd; cbv beta iota zeta;
    rewrite append_empty;
    match goal with
    | |- context [Str.isEmpty ?x && Str.isEmpty ""] =>
        change (Str.isEmpty x && Str.isEmpty "") with false
    end;
    change (exponentPart "" - Z.of_nat (String.length ""))%Z with 0%Z;
    apply round64_comp; change (Qpower 10 0) with 1%Q; apply Qmult_1_r.
Qed.

Lemma digit_not_whiteSpace (c : ascii) :
  Str.isDigit c = true -> Str.isWhiteSpace c = false.
Proof.
  destruct c as [[] [] [] [] [] [] [] []]; intros H;
    first [reflexivity | discriminate H].
Qed.

Lemma digit_not_comma (c : ascii) :
  Str.isDigit c = true -> negb (Ascii.eqb c ",") = true.
Proof.
  destruct c as [[] [] [] [] [] [] [] []]; intros H;
    first [reflexivity | discriminate H].
Qed.

Lemma trimEnd_no_whiteSpace (s : string) :
  Str.forallb (fun c => negb (Str.isWhiteSpace c)) s = true ->
  Str.trimEnd s = s.
Proof.
  induction s as [ | c s IH]; intros H; [reflexivity |].
  cbn [Str.forallb] in H. apply andb_true_iff in H. destruct H as [Hc Hs].
  apply negb_true_iff in Hc.
  cbn [Str.trimEnd]. rewrite Hc, (IH Hs). reflexivity.
Qed.

Lemma forallb_impl (p q : ascii -> bool) (s : string) :
  (forall c, p c = true -> q c = true) ->
  Str.forallb p s = true -> Str.forallb q s = true.
Proof.
  intros Hpq. induction s as [ | c s IH]; intros H; [reflexivity |].
  cbn [Str.forallb] in *. apply andb_true_iff in H. destruct H as [Hc Hs].
  rewrite (Hpq c Hc), (IH Hs). reflexivity.
Qed.

(** A text of digits is trimmed as it is. *)
Lemma trim_digits (s : string) :
  Str.forallb Str.isDigit s = true -> Str.trim s = s.
Proof.
  intros H. unfold Str.trim, Str.trimStart.
  assert (Hw : Str.forallb (fun c => negb (Str.isWhiteSpace c)) s = true).
  { apply (forallb_impl Str.isDigit); [| assumption].
    intros c Hc. rewrite (digit_not_whiteSpace c Hc). reflexivity. }
  destruct s as [ | c r]; [reflexivity |].
  pose proof Hw as Hw2. cbn [Str.forallb] in Hw2.
  apply andb_true_iff in Hw2. destruct Hw2 as [Hc _].
  apply negb_true_iff in Hc.
  cbn [Str.dropWhile]. rewrite Hc. apply trimEnd_no_whiteSpace. assumption.
Qed.

(** What the parser makes of the decimal numeral of a natural number
    below 2^53: that number. *)
Lemma parse_numeral (z : Z) :
  (0 <= z < 2 ^ 53)%Z ->
  commaFree (Str.ofDigits z) = true /\
  parseFloat (Str.trim (Str.ofDigits z)) = ofZ z /\
  max2 (ofZ 0) (ofZ z) = ofZ z.
Proof.
  intros Hz.
  destruct (NumeralFacts.ofDigits_spec z) as (Hd & Hne & Hv); [lia |].
  repeat split.
  - apply (forallb_impl Str.isDigit); [apply digit_not_comma | assumption].
  - rewrite (trim_digits _ Hd), (parseFloat_digits _ Hne Hd), Hv.
    apply round64_int. lia.
  - unfold max2, ofZ, gt. change (inject_Z 0) with 0%Q.
    destruct (Qle_bool (inject_Z z) 0) eqn:E; cbn [negb]; [| reflexivity].
    apply Qle_bool_iff in E. change 0%Q with (inject_Z 0) in E.
    rewrite <- Zle_Qle in E. assert (z = 0%Z) as -> by lia. reflexivity.
Qed.

End ParseFloatFacts.

(** X9: natural numbers below 2^53 written as decimal numerals and joined
    by commas come back from the parser as those numbers, in order. *)
Theorem values_round_trip (numbers : list Z) :
  numbers <> [] ->
  Forall (fun z => (0 <= z < 2 ^ 53)%Z) numbers ->
  parseValues (String.concat "," (map Str.ofDigits numbers))
  = map ofZ numbers.
Proof.
  intros Hne Hall. unfold parseValues.
  rewrite SplitFacts.split_concat.
  - clear Hne. induction Hall as [ | z zs Hz _ IH]; [reflexivity |].
    destruct (ParseFloatFacts.parse_numeral z Hz) as (_ & Hp & Hm).
    cbn [map filter]. rewrite Hp. cbn [isNaN negb ofZ map].
    fold (ofZ z). rewrite Hm. f_equal. exact IH.
  - destruct numbers; [contradiction | discriminate].
  - apply Forall_forall. intros t Hin. apply in_map_iff in Hin.
    destruct Hin as (z & <- & Hin). rewrite Forall_forall in Hall.
    apply (ParseFloatFacts.parse_numeral z (Hall z Hin)).
Qed.

Lemma values_round_trip_witness :
  [10; 0; 2026]%Z <> [] /\
  Forall (fun z => (0 <= z < 2 ^ 53)%Z) [10; 0; 2026]%Z /\
  parseValues (String.concat "," (map Str.ofDigits [10; 0; 2026]%Z))
  = map ofZ [10; 0; 2026]%Z.
Proof.
  split; [discriminate | split].
  - repeat constructor; lia.
  - apply (values_round_trip [10; 0; 2026]%Z);
      [discriminate | repeat constructor; lia].
Defined.

(** ** The loops over the bars *)

Module BarFacts.
Import JSFacts.

Lemma iter_advance (barWidth x : number) (k : nat) :
  Nat.iter k (advance barWidth) (advance barWidth x)
  = Nat.iter (S k) (advance barWidth) x.
Proof.
  symmetry. apply Nat.iter_succ_r.
Qed.

Lemma flat_map_shift {A : Type} (f : nat -> list A) (n : nat) :
  flat_map f (seq 1 n) = flat_map (fun k => f (S k)) (seq 0 n).
Proof.
  rewrite <- seq_shift. induction (seq 0 n) as [ | k l IH]; [reflexivity |].
  cbn [map flat_map]. rewrite IH. reflexivity.
Qed.

(** The loop of [drawGraph]: the calls of the bars one after the other,
    each bar drawn where the advances before it lead. *)
Lemma forFrom_drawBar (canvas : canvasSize) (dataValues : list number)
    (labels : list string) (barColors : list (option string))
    (barWidth scale : number) (n from : nat) (ops : list canvasOp)
    (x : number) :
  forFrom from n (drawBar canvas dataValues labels barColors barWidth scale)
          (ops, x)
  = ((ops ++ flat_map
               (fun k => barCalls canvas dataValues labels barColors
                                  barWidth scale (from + k)
                                  (Nat.iter k (advance barWidth) x))
               (seq 0 n))%list,
     Nat.iter n (advance barWidth) x).
Proof.
  revert from ops x. induction n as [ | n IH]; intros from ops x.
  - cbn [forFrom seq flat_map Nat.iter]. rewrite app_nil_r. reflexivity.
  - cbn [forFrom]. unfold drawBar at 2. fold (advance barWidth x).
    rewrite IH, iter_advance. f_equal.
    rewrite <- app_assoc. f_equal.
    cbn [seq flat_map]. rewrite Nat.add_0_r. cbn [Nat.iter]. f_equal.
    rewrite flat_map_shift. apply flat_map_ext. intros k.
    rewrite iter_advance, Nat.add_succ_r. reflexivity.
Qed.

Lemma rectangles_app (a b : list canvasOp) :
  rectangles (a ++ b) = (rectangles a ++ rectangles b)%list.
Proof.
  unfold rectangles. apply flat_map_app.
Qed.

Lemma texts_app (a b : list canvasOp) :
  texts (a ++ b) = (texts a ++ texts b)%list.
Proof.
  unfold texts. apply flat_map_app.
Qed.

Lemma rectangles_bars (f : nat -> list canvasOp)
    (g : nat -> number * number * number * number) (l : list nat) :
  (forall i, rectangles (f i) = [g i]) ->
  rectangles (flat_map f l) = map g l.
Proof.
  intros H. induction l as [ | i l IH]; [reflexivity |].
  cbn [flat_map map]. rewrite rectangles_app, H, IH. reflexivity.
Qed.

Lemma skipn_nth_error {A : Type} (l : list A) (from : nat) (a : A) :
  nth_error l from = Some a -> skipn from l = a :: skipn (S from) l.
Proof.
  revert from. induction l as [ | b l IH]; intros [ | from] H;
    try discriminate H.
  - injection H as ->. reflexivity.
  - cbn [nth_error] in H. rewrite (skipn_cons from b l). rewrite (IH from H).
    reflexivity.
Qed.

Lemma texts_bars (f : nat -> list canvasOp) (labels : list string)
    (n from : nat) :
  (forall i, texts (f i) = match nth_error labels i with
                           | Some label => [label]
                           | None => []
                           end) ->
  texts (flat_map f (seq from n)) = firstn n (skipn from labels).
Proof.
  intros H. revert from. induction n as [ | n IH]; intros from; [reflexivity |].
  cbn [seq flat_map]. rewrite texts_app, H, IH.
  destruct (nth_error labels from) as [label | ] eqn:E.
  - rewrite (skipn_nth_error _ _ _ E). reflexivity.
  - apply nth_error_None in E.
    rewrite !skipn_all2 by lia. rewrite !firstn_nil. reflexivity.
Qed.

End BarFacts.

Module DrawFacts.
Import BarFacts.

(** All the calls of [drawGraph] on a series that is not empty and that
    the engine takes as arguments, once the colours are there. *)
Lemma drawGraph_calls (argumentLimit : nat) (canvas : canvasSize)
    (ui : controls) (dataValues : list number) (labels : list string)
    (barColors : list (option string)) :
  dataValues <> [] ->
  (List.length dataValues <= argumentLimit)%nat ->
  generateColors ui (List.length dataValues) = Normal barColors ->
  drawGraph argumentLimit canvas ui dataValues labels
  = ((drawBackground canvas
      ++ flat_map
           (fun i =>
              barCalls canvas dataValues labels barColors
                       (drawGraph_barWidth canvas (List.length dataValues))
                       (drawGraph_scale canvas dataValues) i
                       (xOffsetAt
                          (drawGraph_barWidth canvas (List.length dataValues))
                          i))
           (seq 0 (List.length dataValues))
      ++ drawAxes canvas (Math_max dataValues))%list,
     Normal tt).
Proof.
  intros Hne Hlimit Hcolors. unfold drawGraph.
  rewrite (SpreadFacts.spread_within _ _ _ Hlimit).
  destruct dataValues as [ | v vs]; [contradiction |].
  change (List.length (v :: vs) =? 0)%nat with false. cbv iota.
  rewrite Hcolors. unfold forLoop. rewrite forFrom_drawBar.
  rewrite <- app_assoc. reflexivity.
Qed.

Lemma rectangles_barCalls (canvas : canvasSize) (dataValues : list number)
    (labels : list string) (barColors : list (option string))
    (barWidth scale : number) (i : nat) :
  rectangles (barCalls canvas dataValues labels barColors barWidth scale i
                       (xOffsetAt barWidth i))
  = [barRectangle (ofZ (height canvas)) barWidth scale dataValues i].
Proof.
  unfold barCalls, barRectangle. rewrite rectangles_app.
  destruct (nth_error labels i); reflexivity.
Qed.

Lemma texts_barCalls (canvas : canvasSize) (dataValues : list number)
    (labels : list string) (barColors : list (option string))
    (barWidth scale : number) (i : nat) (x : number) :
  texts (barCalls canvas dataValues labels barColors barWidth scale i x)
  = match nth_error labels i with
    | Some label => [label]
    | None => []
    end.
Proof.
  unfold barCalls. rewrite texts_app.
  destruct (nth_error labels i); reflexivity.
Qed.

(** [drawGraph] raises in two ways: the values are more than the engine
    takes as arguments, or [generateColors] raises; in both the background
    is all that was painted. *)
Lemma drawGraph_raises (argumentLimit : nat) (canvas : canvasSize)
    (ui : controls) (dataValues : list number) (labels : list string)
    (e : string) :
  snd (drawGraph argumentLimit canvas ui dataValues labels) = Throw e ->
  dataValues <> [] /\
  fst (drawGraph argumentLimit canvas ui dataValues labels)
  = drawBackground canvas /\
  ((argumentLimit < List.length dataValues)%nat /\ e = rangeError \/
   (List.length dataValues <= argumentLimit)%nat /\
   generateColors ui (List.length dataValues) = Throw e).
Proof.
  unfold drawGraph. destruct dataValues as [ | v vs]; [discriminate |].
  change (List.length (v :: vs) =? 0)%nat with false. cbv iota.
  destruct (Nat.le_gt_cases (List.length (v :: vs)) argumentLimit)
    as [Hle | Hgt].
  - rewrite (SpreadFacts.spread_within _ _ _ Hle).
    destruct (generateColors ui (List.length (v :: vs))) as [barColors | e'].
    + destruct (forLoop _ _ _) as [ops x]. discriminate.
    + cbn [fst snd]. intros H. injection H as ->.
      split; [discriminate | split; [reflexivity | right]].
      split; [exact Hle | reflexivity].
  - rewrite (SpreadFacts.spread_beyond _ _ _ Hgt).
    cbn [fst snd]. intros H. injection H as <-.
    split; [discriminate | split; [reflexivity | left]].
    split; [exact Hgt | reflexivity].
Qed.

(** The converse: more values than the engine takes as arguments make
    [drawGraph] raise a RangeError. *)
Lemma drawGraph_beyond (argumentLimit : nat) (canvas : canvasSize)
    (ui : controls) (dataValues : list number) (labels : list string) :
  (argumentLimit < List.length dataValues)%nat ->
  drawGraph argumentLimit canvas ui dataValues labels
  = (drawBackground canvas, Throw rangeError).
Proof.
  intros Hgt. unfold drawGraph.
  rewrite (SpreadFacts.spread_beyond _ _ _ Hgt).
  destruct (Nat.eqb_spec (List.length dataValues) 0) as [E | _]; [lia |].
  reflexivity.
Qed.

Lemma generateColors_raises (ui : controls) (count : nat) (e : string) :
  generateColors ui count = Throw e ->
  e = typeError /\
  colorMode ui = "gradient" /\ (0 < count)%nat /\
  (hexToRgb (primaryColor ui) = None \/ hexToRgb (secondaryColor ui) = None).
Proof.
  unfold generateColors.
  destruct (String.eqb_spec (colorMode ui) "single") as [E | _];
    [discriminate |].
  destruct (String.eqb_spec (colorMode ui) "gradient") as [E | N].
  - rewrite ColorMoreFacts.generateGradientColors_cases.
    destruct count as [ | n]; [discriminate |].
    destruct (hexToRgb (primaryColor ui)) as [c1 | ];
      [destruct (hexToRgb (secondaryColor ui)) as [c2 | ] |];
      intros H; try discriminate H; injection H as <-;
      (repeat split; [assumption | lia | auto]).
  - destruct (String.eqb (colorMode ui) "rainbow"); [discriminate |].
    destruct (String.eqb (colorMode ui) "custom"); [| discriminate].
    destruct (_ <=? _)%nat; discriminate.
Qed.

(** The converse: a gradient of one colour or more with a colour that
    [hexToRgb] rejects raises a TypeError. *)
Lemma generateColors_bad_gradient (ui : controls) (count : nat) :
  colorMode ui = "gradient" -> (0 < count)%nat ->
  hexToRgb (primaryColor ui) = None \/ hexToRgb (secondaryColor ui) = None ->
  generateColors ui count = Throw typeError.
Proof.
  intros Hm Hcount Hhex. unfold generateColors. rewrite Hm.
  change (String.eqb "gradient" "single") with false.
  change (String.eqb "gradient" "gradient") with true. cbv iota.
  rewrite ColorMoreFacts.generateGradientColors_cases.
  destruct count as [ | n]; [lia |].
  destruct Hhex as [-> | Hs]; [reflexivity |].
  rewrite Hs. destruct (hexToRgb (primaryColor ui)); reflexivity.
Qed.

End DrawFacts.

(** X10: on a series that is not empty and holds no more values than the
    engine takes as arguments, once the colours are generated, [drawGraph]
    completes normally and fills the background and then one rectangle per
    value, in order: bar [i] starts at [sidePadding] advanced [i] times by
    the width of a bar plus the spacing, stands on the bottom padding, and
    all bars have the same width.  The texts it writes are the labels of
    the bars in order, never more than there are bars, then the greatest
    value with one decimal and "0". *)
Theorem drawGraph_draws_each_bar (argumentLimit : nat) (canvas : canvasSize)
    (ui : controls) (dataValues : list number) (labels : list string)
    (barColors : list (option string)) :
  dataValues <> [] ->
  (List.length dataValues <= argumentLimit)%nat ->
  generateColors ui (List.length dataValues) = Normal barColors ->
  let n := List.length dataValues in
  let barWidth := drawGraph_barWidth canvas n in
  let scale := drawGraph_scale canvas dataValues in
  snd (drawGraph argumentLimit canvas ui dataValues labels) = Normal tt /\
  rectangles (fst (drawGraph argumentLimit canvas ui dataValues labels))
  = (ofZ 0, ofZ 0, ofZ (width canvas), ofZ (height canvas))
    :: map (barRectangle (ofZ (height canvas)) barWidth scale dataValues)
           (seq 0 n) /\
  texts (fst (drawGraph argumentLimit canvas ui dataValues labels))
  = (firstn n labels ++ [toFixed1 (Math_max dataValues); "0"])%list.
Proof.
  intros Hne Hlimit Hcolors n barWidth scale.
  rewrite (DrawFacts.drawGraph_calls _ _ _ _ _ _ Hne Hlimit Hcolors).
  cbn [fst snd]. split; [reflexivity | split].
  - rewrite !BarFacts.rectangles_app.
    rewrite (BarFacts.rectangles_bars _
               (barRectangle (ofZ (height canvas)) barWidth scale dataValues))
      by (intros i; apply DrawFacts.rectangles_barCalls).
    change (rectangles (drawAxes canvas (Math_max dataValues))) with
      (@nil (number * number * number * number)).
    rewrite app_nil_r. reflexivity.
  - rewrite !BarFacts.texts_app.
    rewrite (BarFacts.texts_bars _ labels)
      by (intros i; apply DrawFacts.texts_barCalls).
    reflexivity.
Qed.

Lemma drawGraph_draws_each_bar_witness :
  [ofZ 10; ofZ 20] <> [] /\
  (List.length [ofZ 10; ofZ 20] <= 2)%nat /\
  generateColors blueBars (List.length [ofZ 10; ofZ 20])
  = Normal [Some "#3498db"; Some "#3498db"] /\
  (let n := List.length [ofZ 10; ofZ 20] in
   let barWidth := drawGraph_barWidth defaultCanvas n in
   let scale := drawGraph_scale defaultCanvas [ofZ 10; ofZ 20] in
   snd (drawGraph 2 defaultCanvas blueBars [ofZ 10; ofZ 20] ["A"; "B"; "C"])
   = Normal tt /\
   rectangles (fst (drawGraph 2 defaultCanvas blueBars [ofZ 10; ofZ 20]
                              ["A"; "B"; "C"]))
   = (ofZ 0, ofZ 0, ofZ (width defaultCanvas), ofZ (height defaultCanvas))
     :: map (barRectangle (ofZ (height defaultCanvas)) barWidth scale
                          [ofZ 10; ofZ 20])
            (seq 0 n) /\
   texts (fst (drawGraph 2 defaultCanvas blueBars [ofZ 10; ofZ 20]
                         ["A"; "B"; "C"]))
   = (firstn n ["A"; "B"; "C"]
      ++ [toFixed1 (Math_max [ofZ 10; ofZ 20]); "0"])%list).
Proof.
  split; [discriminate | split; [cbn; lia | split; [reflexivity |]]].
  apply (drawGraph_draws_each_bar 2 defaultCanvas blueBars [ofZ 10; ofZ 20]
           ["A"; "B"; "C"] [Some "#3498db"; Some "#3498db"]);
    [discriminate | cbn; lia | reflexivity].
Defined.

(** X11: [drawGraph] raises in exactly two situations, on a series that
    is not empty: a RangeError when the values are more than the engine
    takes as arguments (the spread at line 263), and otherwise a TypeError
    when the mode is gradient and the primary or the secondary colour is
    not a six-digit hexadecimal colour.  Either way the canvas then holds
    the white background and nothing else. *)
Theorem drawGraph_raises_in_two_ways (argumentLimit : nat)
    (canvas : canvasSize) (ui : controls) (dataValues : list number)
    (labels : list string) (e : string) :
  (snd (drawGraph argumentLimit canvas ui dataValues labels) = Throw e <->
   dataValues <> [] /\
   ((argumentLimit < List.length dataValues)%nat /\ e = rangeError \/
    (List.length dataValues <= argumentLimit)%nat /\ e = typeError /\
    colorMode ui = "gradient" /\
    (hexToRgb (primaryColor ui) = None \/
     hexToRgb (secondaryColor ui) = None))) /\
  (snd (drawGraph argumentLimit canvas ui dataValues labels) = Throw e ->
   fst (drawGraph argumentLimit canvas ui dataValues labels)
   = drawBackground canvas).
Proof.
  split.
  - split.
    + intros H.
      destruct (DrawFacts.drawGraph_raises _ _ _ _ _ _ H)
        as (Hne & _ & [[Hgt He] | [Hle Hc]]).
      * split; [assumption | left; split; assumption].
      * destruct (DrawFacts.generateColors_raises _ _ _ Hc)
          as (He & Hm & _ & Hhex).
        split; [assumption | right; repeat split; assumption].
    + intros [Hne [[Hgt ->] | (Hle & -> & Hm & Hhex)]].
      * rewrite (DrawFacts.drawGraph_beyond _ _ _ _ _ Hgt). reflexivity.
      * assert (Hpos : (0 < List.length dataValues)%nat).
        { destruct dataValues; [contradiction | cbn; lia]. }
        unfold drawGraph.
        rewrite (SpreadFacts.spread_within _ _ _ Hle).
        destruct (Nat.eqb_spec (List.length dataValues) 0) as [E | _];
          [lia |].
        rewrite (DrawFacts.generateColors_bad_gradient _ _ Hm Hpos Hhex).
        reflexivity.
  - intros H.
    destruct (DrawFacts.drawGraph_raises _ _ _ _ _ _ H) as (_ & Hops & _).
    exact Hops.
Qed.

(** ** Numbers that are not NaN *)

Module NaNFacts.
Import JSFacts.

Lemma round64_not_NaN (q : Q) : round64 q <> NaN.
Proof.
  unfold round64. cbv zeta.
  destruct (Qred q ?= 0)%Q; [discriminate | |];
    destruct (Qle_bool _ _); discriminate.
Qed.

Lemma sub_Fin_not_NaN (a : Q) (y : number) :
  y <> NaN -> sub (Fin a) y <> NaN.
Proof.
  intros Hy. destruct y as [ | | | b]; [contradiction | discriminate ..|].
  unfold sub, neg, add. apply round64_not_NaN.
Qed.

Lemma mul_spacing_not_NaN (x : number) :
  x <> NaN -> mul x barSpacing <> NaN.
Proof.
  intros Hx. destruct x as [ | | | a]; [contradiction | discriminate ..|].
  unfold mul, barSpacing, ofZ. apply round64_not_NaN.
Qed.

Lemma div_count_not_NaN (x : number) (n : nat) :
  x <> NaN -> (0 < n)%nat -> div x (ofNat n) <> NaN.
Proof.
  intros Hx Hn. unfold ofNat, ofZ.
  destruct x as [ | | | a]; [contradiction | | |]; unfold div.
  - destruct (isNeg _); discriminate.
  - destruct (isNeg _); discriminate.
  - rewrite isZero_ofZ. destruct (Z.eqb_spec (Z.of_nat n) 0); [lia |].
    apply round64_not_NaN.
Qed.

(** A number that is not NaN and not at most zero is above zero. *)
Lemma not_le_gt (x : number) :
  x <> NaN -> le x (ofZ 0) = false -> gt x (ofZ 0) = true.
Proof.
  intros Hx. destruct x as [ | | | a]; [contradiction | ..]; cbn [le gt ofZ].
  - reflexivity.
  - discriminate.
  - intros H. apply negb_false_iff in H. exact H.
Qed.

End NaNFacts.

(** X12: on a canvas whose width is an unsigned 32-bit integer, the width
    that [drawGraph] gives a bar is above zero for every number of bars,
    also when no width is left for the bars. *)
Theorem barWidth_positive (canvas : canvasSize) (numBars : nat) :
  (0 <= width canvas < 2 ^ 32)%Z ->
  gt (drawGraph_barWidth canvas numBars) (ofZ 0) = true.
Proof.
  intros Hw. unfold drawGraph_barWidth.
  set (barWidth := if (0 <? numBars)%nat then _ else _).
  assert (Hb : barWidth <> NaN).
  { unfold barWidth. destruct (Nat.ltb_spec 0 numBars) as [Hn | _];
      [| discriminate].
    apply NaNFacts.div_count_not_NaN; [| assumption].
    change (mul (ofZ 2) sidePadding) with (ofZ 60).
    rewrite JSFacts.sub_int by lia.
    apply NaNFacts.sub_Fin_not_NaN, NaNFacts.mul_spacing_not_NaN.
    unfold ofNat, ofZ, sub, neg, add. apply NaNFacts.round64_not_NaN. }
  destruct (le barWidth (ofZ 0)) eqn:E; [reflexivity |].
  apply NaNFacts.not_le_gt; assumption.
Qed.

Lemma barWidth_positive_witness :
  (0 <= width defaultCanvas < 2 ^ 32)%Z /\
  gt (drawGraph_barWidth defaultCanvas 100) (ofZ 0) = true.
Proof.
  split.
  - vm_compute. split; [discriminate | reflexivity].
  - apply (barWidth_positive defaultCanvas 100).
    vm_compute. split; [discriminate | reflexivity].
Defined.

(** ** The SVG document *)

Module SvgFacts.
Import BarFacts.

Lemma append_assoc (a b c : string) : (a ++ b) ++ c = a ++ (b ++ c).
Proof.
  induction a as [ | x a IH]; [reflexivity |].
  cbn [append]. rewrite IH. reflexivity.
Qed.

Lemma append_nil_r (a : string) : a ++ "" = a.
Proof.
  induction a as [ | x a IH]; [reflexivity |].
  cbn [append]. rewrite IH. reflexivity.
Qed.

(** The loop of [exportSVG]: the elements of the bars one after the
    other, each bar placed where the advances before it lead. *)
Lemma forFrom_exportBar (dataValues : list number) (labels : list string)
    (barColors : list (option string)) (barWidth scale : number)
    (n from : nat) (svgContent : string) (x : number) :
  forFrom from n (exportBar dataValues labels barColors barWidth scale)
          (svgContent, x)
  = (svgContent
     ++ joinAll (map (fun k => barElements dataValues labels barColors
                                           barWidth scale (from + k)
                                           (Nat.iter k (advance barWidth) x))
                     (seq 0 n)),
     Nat.iter n (advance barWidth) x).
Proof.
  revert from svgContent x.
  induction n as [ | n IH]; intros from svgContent x.
  - cbn [forFrom seq map joinAll fold_right Nat.iter].
    rewrite append_nil_r. reflexivity.
  - cbn [forFrom]. unfold exportBar at 2. fold (advance barWidth x).
    rewrite IH, iter_advance. f_equal.
    rewrite append_assoc. f_equal.
    cbn [seq map joinAll fold_right]. rewrite Nat.add_0_r. cbn [Nat.iter].
    f_equal. fold (joinAll
      (map (fun k => barElements dataValues labels barColors barWidth scale
                                 (from + k) (Nat.iter k (advance barWidth) x))
           (seq 1 n))).
    rewrite <- seq_shift, map_map. f_equal. apply map_ext. intros k.
    rewrite iter_advance, Nat.add_succ_r. reflexivity.
Qed.

(** A parse without error: what it returns. *)
Lemma parse_success (valueText labelText : string) :
  hasError (fst (parseInputValues valueText labelText)) = false ->
  fst (parseInputValues valueText labelText)
  = {| dataValues := parseValues valueText;
       labels := parseLabels labelText;
       hasError := false |} /\
  List.length (parseValues valueText) = List.length (parseLabels labelText) /\
  (1 <= List.length (parseValues valueText))%nat.
Proof.
  destruct (Nat.eq_dec (List.length (parseValues valueText))
                       (List.length (parseLabels labelText))) as [E | N].
  - rewrite (ParserFacts.parseInputValues_equal _ _ E). intros _.
    repeat split; [assumption |]. rewrite E.
    unfold parseLabels. rewrite length_map. apply ColorFacts.split_nonempty.
  - rewrite (ParserFacts.parseInputValues_differ _ _ N). discriminate.
Qed.

(** What [exportSVG] does after a parse without error. *)
Lemma exportSVG_parsed (argumentLimit : nat) (ui : controls)
    (valueText labelText : string) :
  hasError (fst (parseInputValues valueText labelText)) = false ->
  exportSVG argumentLimit ui valueText labelText
  = (maxValue <- spread argumentLimit Math_max (parseValues valueText) ;;
     barColors <- generateColors ui (List.length (parseValues valueText)) ;;
     Normal (Some
       (svgOpening ++ svgBackground
        ++ joinAll
             (map (fun i =>
                     barElements (parseValues valueText) (parseLabels labelText)
                       barColors
                       (exportSVG_barWidth (List.length (parseValues valueText)))
                       (exportSVG_scale (parseValues valueText)) i
                       (xOffsetAt
                          (exportSVG_barWidth
                             (List.length (parseValues valueText))) i))
                  (seq 0 (List.length (parseValues valueText))))
        ++ svgClosing maxValue))).
Proof.
  intros Hok.
  destruct (parse_success _ _ Hok) as (Hin & Hlen & Hpos).
  unfold exportSVG. rewrite Hin. cbn [dataValues labels].
  destruct (Nat.eqb_spec (List.length (parseValues valueText)) 0) as [E | _];
    [lia |].
  destruct (spread argumentLimit Math_max (parseValues valueText))
    as [maxValue | e]; [| reflexivity].
  cbn [bind].
  destruct (generateColors ui (List.length (parseValues valueText)))
    as [barColors | e]; [| reflexivity].
  cbn [bind]. unfold forLoop. rewrite forFrom_exportBar.
  unfold svgClosing. rewrite !append_assoc. reflexivity.
Qed.

(** The document that [exportSVG] builds after a parse without error of no
    more values than the engine takes as arguments, once the colours are
    there. *)
Lemma exportSVG_document (argumentLimit : nat) (ui : controls)
    (valueText labelText : string) (barColors : list (option string)) :
  hasError (fst (parseInputValues valueText labelText)) = false ->
  (List.length (parseValues valueText) <= argumentLimit)%nat ->
  generateColors ui (List.length (parseValues valueText)) = Normal barColors ->
  exportSVG argumentLimit ui valueText labelText
  = Normal (Some
      (svgOpening ++ svgBackground
       ++ joinAll
            (map (fun i =>
                    barElements (parseValues valueText) (parseLabels labelText)
                      barColors
                      (exportSVG_barWidth (List.length (parseValues valueText)))
                      (exportSVG_scale (parseValues valueText)) i
                      (xOffsetAt
                         (exportSVG_barWidth
                            (List.length (parseValues valueText))) i))
                 (seq 0 (List.length (parseValues valueText))))
       ++ svgClosing (Math_max (parseValues valueText)))).
Proof.
  intros Hok Hlimit Hcolors.
  rewrite (exportSVG_parsed _ _ _ _ Hok).
  rewrite (SpreadFacts.spread_within _ _ _ Hlimit), Hcolors. reflexivity.
Qed.

Lemma combine_seq_map {A B : Type} (g : nat -> A) (f : nat * A -> B)
    (l : list nat) :
  map f (combine l (map g l)) = map (fun i => f (i, g i)) l.
Proof.
  induction l as [ | i l IH]; [reflexivity |].
  cbn [map combine]. rewrite IH. reflexivity.
Qed.

End SvgFacts.

Module AgreeFacts.

Lemma rectangles_drawGraph (argumentLimit : nat) (canvas : canvasSize)
    (ui : controls) (dataValues : list number) (labels : list string)
    (barColors : list (option string)) :
  dataValues <> [] ->
  (List.length dataValues <= argumentLimit)%nat ->
  generateColors ui (List.length dataValues) = Normal barColors ->
  rectangles (fst (drawGraph argumentLimit canvas ui dataValues labels))
  = (ofZ 0, ofZ 0, ofZ (width canvas), ofZ (height canvas))
    :: map (barRectangle (ofZ (height canvas))
              (drawGraph_barWidth canvas (List.length dataValues))
              (drawGraph_scale canvas dataValues) dataValues)
           (seq 0 (List.length dataValues)).
Proof.
  intros Hne Hlimit Hcolors.
  rewrite (DrawFacts.drawGraph_calls _ _ _ _ _ _ Hne Hlimit Hcolors). cbn [fst].
  rewrite !BarFacts.rectangles_app.
  rewrite (BarFacts.rectangles_bars _
             (barRectangle (ofZ (height canvas))
                (drawGraph_barWidth canvas (List.length dataValues))
                (drawGraph_scale canvas dataValues) dataValues))
    by (intros i; apply DrawFacts.rectangles_barCalls).
  change (rectangles (drawAxes canvas (Math_max dataValues))) with
    (@nil (number * number * number * number)).
  rewrite app_nil_r. reflexivity.
Qed.

(** The elements that [exportSVG] writes for a bar with a label, from the
    rectangle that [drawGraph] fills for it on the default canvas. *)
Lemma barElements_of_rectangle (dataValues : list number)
    (labels : list string) (barColors : list (option string))
    (barWidth scale : number) (i : nat) :
  (i < List.length labels)%nat ->
  barElements dataValues labels barColors barWidth scale i
              (xOffsetAt barWidth i)
  = svgBarOf barColors labels
             (i, barRectangle (ofZ (height defaultCanvas)) barWidth scale
                              dataValues i).
Proof.
  intros Hi. unfold barElements, svgBarOf, barRectangle.
  rewrite (nth_error_nth' labels "" Hi). reflexivity.
Qed.

End AgreeFacts.

(** X13: for an input that parses without error into at most 70 values,
    no more than the engine takes as arguments, once the colours are
    generated, the two renderers place the bars alike: the [rect] element
    that [exportSVG] writes for bar [i] has the x, y, width and height of
    the rectangle that [drawGraph] fills for bar [i] on the default
    canvas. *)
Theorem renderers_agree_up_to_70 (argumentLimit : nat) (ui : controls)
    (valueText labelText : string) (barColors : list (option string)) :
  let input := fst (parseInputValues valueText labelText) in
  hasError input = false ->
  (List.length (dataValues input) <= 70)%nat ->
  (List.length (dataValues input) <= argumentLimit)%nat ->
  generateColors ui (List.length (dataValues input)) = Normal barColors ->
  exists bars,
    List.length bars = List.length (dataValues input) /\
    rectangles (fst (drawGraph argumentLimit defaultCanvas ui
                               (dataValues input) (labels input)))
    = (ofZ 0, ofZ 0, ofZ 760, ofZ 400) :: bars /\
    exportSVG argumentLimit ui valueText labelText
    = Normal (Some
        (svgOpening ++ svgBackground
         ++ joinAll (map (svgBarOf barColors (labels input))
                         (combine (seq 0 (List.length bars)) bars))
         ++ svgClosing (Math_max (dataValues input)))).
Proof.
  intros input Hok. unfold input in *.
  destruct (SvgFacts.parse_success _ _ Hok) as (Hin & Hlen & Hpos).
  rewrite Hin. cbn [dataValues labels]. intros Hle Hlimit Hcolors.
  set (values := parseValues valueText) in *.
  set (names := parseLabels labelText) in *.
  set (n := List.length values) in *.
  assert (Hne : values <> []).
  { intros E. unfold n in Hpos. rewrite E in Hpos. cbn in Hpos. lia. }
  exists (map (barRectangle (ofZ (height defaultCanvas))
                 (drawGraph_barWidth defaultCanvas n)
                 (drawGraph_scale defaultCanvas values) values)
              (seq 0 n)).
  split; [| split].
  - rewrite length_map, length_seq. reflexivity.
  - apply (AgreeFacts.rectangles_drawGraph argumentLimit defaultCanvas ui
             values names barColors Hne Hlimit Hcolors).
  - rewrite (SvgFacts.exportSVG_document _ _ _ _ _ Hok Hlimit Hcolors).
    fold values names n.
    rewrite length_map, length_seq, SvgFacts.combine_seq_map.
    rewrite <- (RendererFacts.barWidths_agree n) by lia.
    rewrite <- (RendererFacts.scales_agree values).
    rewrite (map_ext_in
               (fun i =>
                  barElements values names barColors
                    (drawGraph_barWidth defaultCanvas n)
                    (drawGraph_scale defaultCanvas values) i
                    (xOffsetAt (drawGraph_barWidth defaultCanvas n) i))
               (fun i =>
                  svgBarOf barColors names
                    (i, barRectangle (ofZ (height defaultCanvas))
                          (drawGraph_barWidth defaultCanvas n)
                          (drawGraph_scale defaultCanvas values) values i)));
      [reflexivity |].
    intros i Hi. apply in_seq in Hi.
    apply AgreeFacts.barElements_of_rectangle. lia.
Qed.

Lemma renderers_agree_up_to_70_witness :
  (let input := fst (parseInputValues "10,20,30" "A,B,C") in
   hasError input = false /\
   (List.length (dataValues input) <= 70)%nat /\
   (List.length (dataValues input) <= 100)%nat /\
   generateColors blueBars (List.length (dataValues input))
   = Normal [Some "#3498db"; Some "#3498db"; Some "#3498db"]) /\
  (let input := fst (parseInputValues "10,20,30" "A,B,C") in
   exists bars,
     List.length bars = List.length (dataValues input) /\
     rectangles (fst (drawGraph 100 defaultCanvas blueBars
                                (dataValues input) (labels input)))
     = (ofZ 0, ofZ 0, ofZ 760, ofZ 400) :: bars /\
     exportSVG 100 blueBars "10,20,30" "A,B,C"
     = Normal (Some
         (svgOpening ++ svgBackground
          ++ joinAll (map (svgBarOf
                             [Some "#3498db"; Some "#3498db"; Some "#3498db"]
                             (labels input))
                          (combine (seq 0 (List.length bars)) bars))
          ++ svgClosing (Math_max (dataValues input))))).
Proof.
  split.
  - cbv zeta.
    split; [reflexivity |
            split; [vm_compute; lia | split; [vm_compute; lia | reflexivity]]].
  - apply (renderers_agree_up_to_70 100 blueBars "10,20,30" "A,B,C"
             [Some "#3498db"; Some "#3498db"; Some "#3498db"]);
      [reflexivity | vm_compute; lia | vm_compute; lia | reflexivity].
Defined.

(** X14: [exportSVG] returns without a document exactly when the input
    does not parse: whatever the colours and however many arguments the
    engine takes, a count mismatch gives no download and no exception, and
    an input that parses never does. *)
Theorem exportSVG_nothing_iff_error (argumentLimit : nat) (ui : controls)
    (valueText labelText : string) :
  exportSVG argumentLimit ui valueText labelText = Normal None <->
  hasError (fst (parseInputValues valueText labelText)) = true.
Proof.
  destruct (hasError (fst (parseInputValues valueText labelText))) eqn:Hok.
  - split; [reflexivity | intros _].
    destruct (Nat.eq_dec (List.length (parseValues valueText))
                         (List.length (parseLabels labelText))) as [E | N].
    + rewrite (ParserFacts.parseInputValues_equal _ _ E) in Hok.
      discriminate Hok.
    + unfold exportSVG.
      rewrite (ParserFacts.parseInputValues_differ _ _ N). reflexivity.
  - split; [| discriminate]. intros H. exfalso.
    rewrite (SvgFacts.exportSVG_parsed _ _ _ _ Hok) in H.
    destruct (spread argumentLimit Math_max (parseValues valueText))
      as [maxValue | e]; [| discriminate H].
    destruct (generateColors ui (List.length (parseValues valueText)))
      as [barColors | e]; discriminate H.
Qed.

(** ** Further properties of the configuration *)

Module ConfigFacts.

Lemma matchDefine_step (name content : string) :
  matchDefine name content
  = match
      match Str.stripPrefix ("#define " ++ name) content with
      | Some rest =>
          let ws := Str.takeWhile Str.isWhiteSpace rest in
          let ds := Str.takeWhile Str.isDigit
                      (Str.dropWhile Str.isWhiteSpace rest) in
          if Str.isEmpty ws || Str.isEmpty ds then None else Some ds
      | None => None
      end
    with
    | Some ds => Some ds
    | None =>
        match content with
        | String _ rest => matchDefine name rest
        | "" => None
        end
    end.
Proof.
  destruct content; reflexivity.
Qed.

Lemma stripPrefix_Some (p s rest : string) :
  Str.stripPrefix p s = Some rest -> s = p ++ rest.
Proof.
  revert s. induction p as [ | a p IH]; intros s H.
  - cbn [Str.stripPrefix] in H. injection H as ->. reflexivity.
  - destruct s as [ | b s]; [discriminate H |].
    cbn [Str.stripPrefix] in H.
    destruct (Ascii.eqb_spec a b) as [-> | _]; [| discriminate H].
    cbn [append]. rewrite (IH s H). reflexivity.
Qed.

Lemma takeWhile_dropWhile (p : ascii -> bool) (s : string) :
  s = Str.takeWhile p s ++ Str.dropWhile p s.
Proof.
  induction s as [ | c s IH]; [reflexivity |].
  cbn [Str.takeWhile Str.dropWhile]. destruct (p c); [| reflexivity].
  cbn [append]. rewrite <- IH. reflexivity.
Qed.

Lemma takeWhile_forallb (p : ascii -> bool) (s : string) :
  Str.forallb p (Str.takeWhile p s) = true.
Proof.
  induction s as [ | c s IH]; [reflexivity |].
  cbn [Str.takeWhile]. destruct (p c) eqn:E; [| reflexivity].
  cbn [Str.forallb]. rewrite E, IH. reflexivity.
Qed.

Lemma isEmpty_false (s : string) : Str.isEmpty s = false -> s <> "".
Proof.
  destruct s; [discriminate | discriminate].
Qed.

End ConfigFacts.

Module ConfigMoreFacts.

(** [loadConfiguration] on a file that is there and can be read. *)
Lemma loadConfiguration_read (fs : fileSystem) (w : window)
    (content : string) :
  existsSync fs = Normal true -> readFileSync fs = Normal content ->
  loadConfiguration fs w
  = {| EMACS_INTEGRATION :=
         flagAfter "EMACS_INTEGRATION" content (EMACS_INTEGRATION w);
       DEBUG := flagAfter "DEBUG" content (DEBUG w);
       VERBOSE := flagAfter "VERBOSE" content (VERBOSE w) |}.
Proof.
  intros He Hr. unfold loadConfiguration. rewrite He, Hr.
  cbn [bind tryCatch]. unfold flagAfter. destruct w as [e d v].
  destruct (matchDefine "EMACS_INTEGRATION" content);
    destruct (matchDefine "DEBUG" content);
    destruct (matchDefine "VERBOSE" content); reflexivity.
Qed.

Lemma flagAfter_idempotent (name content : string) (before : option bool) :
  flagAfter name content (flagAfter name content before)
  = flagAfter name content before.
Proof.
  unfold flagAfter. destruct (matchDefine name content); reflexivity.
Qed.

End ConfigMoreFacts.

(** *** The pattern of a flag, as a relation on the text *)

Module DefineFacts.
Import ConfigFacts.

Lemma stripPrefix_app (p rest : string) :
  Str.stripPrefix p (p ++ rest) = Some rest.
Proof.
  induction p as [ | a p IH]; [reflexivity |].
  cbn [append Str.stripPrefix]. rewrite Ascii.eqb_refl. exact IH.
Qed.

Lemma takeWhile_app_stop (p : ascii -> bool) (a b : string) :
  Str.forallb p a = true -> stopsAt p b -> Str.takeWhile p (a ++ b) = a.
Proof.
  intros Ha Hb. induction a as [ | c a IH].
  - destruct b as [ | c b]; [reflexivity |].
    cbn [append Str.takeWhile]. cbn [stopsAt] in Hb. rewrite Hb. reflexivity.
  - cbn [Str.forallb] in Ha. apply andb_prop in Ha. destruct Ha as [Hc Ha].
    cbn [append Str.takeWhile]. rewrite Hc, (IH Ha). reflexivity.
Qed.

Lemma dropWhile_app_stop (p : ascii -> bool) (a b : string) :
  Str.forallb p a = true -> stopsAt p b -> Str.dropWhile p (a ++ b) = b.
Proof.
  intros Ha Hb. induction a as [ | c a IH].
  - destruct b as [ | c b]; [reflexivity |].
    cbn [append Str.dropWhile]. cbn [stopsAt] in Hb. rewrite Hb. reflexivity.
  - cbn [Str.forallb] in Ha. apply andb_prop in Ha. destruct Ha as [Hc Ha].
    cbn [append Str.dropWhile]. rewrite Hc. exact (IH Ha).
Qed.

Lemma dropWhile_stops (p : ascii -> bool) (s : string) :
  stopsAt p (Str.dropWhile p s).
Proof.
  induction s as [ | c s IH]; [exact I |].
  cbn [Str.dropWhile]. destruct (p c) eqn:E; [exact IH | exact E].
Qed.

(** Digits stop a run of white space. *)
Lemma digits_stop_whiteSpace (digits after : string) :
  digits <> "" -> Str.forallb Str.isDigit digits = true ->
  stopsAt Str.isWhiteSpace (digits ++ after).
Proof.
  destruct digits as [ | c digits]; [contradiction | intros _ H].
  cbn [Str.forallb] in H. apply andb_prop in H. destruct H as [Hc _].
  cbn [append stopsAt]. apply ParseFloatFacts.digit_not_whiteSpace. exact Hc.
Qed.

Lemma isEmpty_true (s : string) : s <> "" -> Str.isEmpty s = false.
Proof.
  destruct s; [contradiction | reflexivity].
Qed.

(** The test made at one place of the text is a match of the pattern
    there. *)
Lemma captureAt_spec (name s digits : string) :
  captureAt name s = Some digits <-> matchesAt name s digits.
Proof.
  unfold captureAt, matchesAt. split.
  - destruct (Str.stripPrefix ("#define " ++ name) s) as [rest | ] eqn:E;
      [| discriminate].
    cbv zeta.
    destruct (Str.isEmpty (Str.takeWhile Str.isWhiteSpace rest)) eqn:Ews;
      cbn [orb]; [discriminate |].
    destruct (Str.isEmpty
                (Str.takeWhile Str.isDigit
                   (Str.dropWhile Str.isWhiteSpace rest))) eqn:Eds;
      [discriminate |].
    intros H. injection H as <-.
    exists (Str.takeWhile Str.isWhiteSpace rest),
      (Str.dropWhile Str.isDigit (Str.dropWhile Str.isWhiteSpace rest)).
    split; [| repeat split].
    + rewrite (stripPrefix_Some _ _ _ E) at 1.
      rewrite <- (takeWhile_dropWhile Str.isDigit).
      rewrite <- (takeWhile_dropWhile Str.isWhiteSpace).
      reflexivity.
    + apply isEmpty_false. assumption.
    + apply takeWhile_forallb.
    + apply isEmpty_false. assumption.
    + apply takeWhile_forallb.
    + apply (dropWhile_stops Str.isDigit).
  - intros (space & after & -> & Hs1 & Hs2 & Hd1 & Hd2 & Hafter).
    rewrite stripPrefix_app. cbv zeta.
    pose proof (digits_stop_whiteSpace digits after Hd1 Hd2) as Hstop.
    rewrite (takeWhile_app_stop _ _ _ Hs2 Hstop).
    rewrite (dropWhile_app_stop _ _ _ Hs2 Hstop).
    rewrite (takeWhile_app_stop _ _ _ Hd2 Hafter).
    rewrite (isEmpty_true _ Hs1), (isEmpty_true _ Hd1). reflexivity.
Qed.

Lemma matchDefine_captureAt (name content : string) :
  matchDefine name content
  = match captureAt name content with
    | Some ds => Some ds
    | None =>
        match content with
        | String _ rest => matchDefine name rest
        | "" => None
        end
    end.
Proof.
  destruct content; reflexivity.
Qed.

(** [matchDefine] returns what the first place that passes the test
    captures. *)
Lemma matchDefine_first (name s digits : string) (before : string) :
  captureAt name s = Some digits ->
  (forall before' s',
     before ++ s = before' ++ s' ->
     (String.length before' < String.length before)%nat ->
     captureAt name s' = None) ->
  matchDefine name (before ++ s) = Some digits.
Proof.
  intros Hs. induction before as [ | c before IH]; intros Hfirst.
  - cbn [append]. rewrite matchDefine_captureAt, Hs. reflexivity.
  - rewrite matchDefine_captureAt.
    rewrite (Hfirst "" (String c before ++ s) eq_refl)
      by (cbn [String.length]; lia).
    cbn [append]. apply IH. intros before' s' E Hlt.
    apply (Hfirst (String c before') s').
    + cbn [append]. rewrite E. reflexivity.
    + cbn [String.length]. lia.
Qed.

Lemma matchDefine_Some (name content digits : string) :
  matchDefine name content = Some digits ->
  exists before s,
    content = before ++ s /\ captureAt name s = Some digits /\
    forall before' s',
      content = before' ++ s' ->
      (String.length before' < String.length before)%nat ->
      captureAt name s' = None.
Proof.
  induction content as [ | c content IH]; rewrite matchDefine_captureAt.
  - destruct (captureAt name "") as [ds | ] eqn:E; [| discriminate].
    intros H. injection H as ->. exists "", "".
    split; [reflexivity | split; [exact E |]].
    intros before' s' _ Hlt. cbn [String.length] in Hlt. lia.
  - destruct (captureAt name (String c content)) as [ds | ] eqn:E.
    + intros H. injection H as ->. exists "", (String c content).
      split; [reflexivity | split; [exact E |]].
      intros before' s' _ Hlt. cbn [String.length] in Hlt. lia.
    + intros H. destruct (IH H) as (before & s & -> & Hs & Hfirst).
      exists (String c before), s.
      split; [reflexivity | split; [exact Hs |]].
      intros before' s' Heq Hlt. destruct before' as [ | c' before'].
      * cbn [append] in Heq. rewrite <- Heq. exact E.
      * cbn [append] in Heq. injection Heq as _ Heq.
        apply (Hfirst before' s' Heq). cbn [String.length] in Hlt. lia.
Qed.

Lemma matchDefine_None (name : string) (before s : string) :
  matchDefine name (before ++ s) = None -> captureAt name s = None.
Proof.
  induction before as [ | c before IH]; rewrite matchDefine_captureAt.
  - cbn [append]. destruct (captureAt name s); [discriminate | reflexivity].
  - destruct (captureAt name (String c before ++ s)); [discriminate |].
    cbn [append]. exact IH.
Qed.

(** The relation [definedBy] is the function [matchDefine]. *)
Lemma definedBy_matchDefine (name content : string) (value : bool) :
  definedBy name content value <->
  exists digits,
    matchDefine name content = Some digits /\ value = String.eqb digits "1".
Proof.
  split.
  - intros (before & s & digits & -> & Hs & Hfirst & ->).
    exists digits. split; [| reflexivity].
    apply matchDefine_first; [apply captureAt_spec; exact Hs |].
    intros before' s' Heq Hlt.
    destruct (captureAt name s') as [ds | ] eqn:E; [exfalso | reflexivity].
    apply (Hfirst before' s' ds Heq Hlt). apply captureAt_spec. exact E.
  - intros (digits & Hm & ->).
    destruct (matchDefine_Some _ _ _ Hm) as (before & s & -> & Hs & Hfirst).
    exists before, s, digits.
    split; [reflexivity | split; [apply captureAt_spec; exact Hs |]].
    split; [| reflexivity].
    intros before' s' ds Heq Hlt Hmatch. apply captureAt_spec in Hmatch.
    rewrite (Hfirst before' s' Heq Hlt) in Hmatch. discriminate Hmatch.
Qed.

(** A text defines a flag in one way at most. *)
Lemma definedBy_unique (name content : string) (v1 v2 : bool) :
  definedBy name content v1 -> definedBy name content v2 -> v1 = v2.
Proof.
  intros H1 H2.
  apply definedBy_matchDefine in H1. apply definedBy_matchDefine in H2.
  destruct H1 as (d1 & E1 & ->). destruct H2 as (d2 & E2 & ->).
  rewrite E1 in E2. injection E2 as ->. reflexivity.
Qed.

(** What a flag is after the file was read, in terms of the text. *)
Lemma flagAfter_definedBy (name content : string) (before : option bool)
    (value : bool) :
  flagAfter name content before = Some value <->
  definedBy name content value \/
  (forall v, ~ definedBy name content v) /\ before = Some value.
Proof.
  unfold flagAfter.
  destruct (matchDefine name content) as [digits | ] eqn:E.
  - split.
    + intros H. injection H as <-. left.
      apply definedBy_matchDefine. exists digits. split; [exact E | reflexivity].
    + intros [H | [Hno _]].
      * apply definedBy_matchDefine in H. destruct H as (d & Hd & ->).
        rewrite E in Hd. injection Hd as ->. reflexivity.
      * exfalso. apply (Hno (String.eqb digits "1")).
        apply definedBy_matchDefine. exists digits.
        split; [exact E | reflexivity].
  - split.
    + intros H. right. split; [| exact H].
      intros v Hv. apply definedBy_matchDefine in Hv.
      destruct Hv as (d & Hd & _). rewrite E in Hd. discriminate Hd.
    + intros [H | [_ H]]; [| exact H].
      apply definedBy_matchDefine in H. destruct H as (d & Hd & _).
      rewrite E in Hd. discriminate Hd.
Qed.

End DefineFacts.

(** X15: when [config.h] is read, each flag ends up with the value that
    the first [#define] of its name with a number gives it: [#define], one
    space, the name, white space and decimal digits, all of them, the flag
    being true exactly when the digits are "1".  A flag without such a
    [#define] keeps the value it had.  The text gives a flag one value at
    most. *)
Theorem flags_come_from_defines (fs : fileSystem) (w : window)
    (content : string) :
  existsSync fs = Normal true -> readFileSync fs = Normal content ->
  let after := loadConfiguration fs w in
  (forall value,
     EMACS_INTEGRATION after = Some value <->
     definedBy "EMACS_INTEGRATION" content value \/
     (forall v, ~ definedBy "EMACS_INTEGRATION" content v) /\
     EMACS_INTEGRATION w = Some value) /\
  (forall value,
     DEBUG after = Some value <->
     definedBy "DEBUG" content value \/
     (forall v, ~ definedBy "DEBUG" content v) /\ DEBUG w = Some value) /\
  (forall value,
     VERBOSE after = Some value <->
     definedBy "VERBOSE" content value \/
     (forall v, ~ definedBy "VERBOSE" content v) /\ VERBOSE w = Some value) /\
  (forall name v1 v2,
     definedBy name content v1 -> definedBy name content v2 -> v1 = v2).
Proof.
  intros He Hr after. unfold after.
  rewrite (ConfigMoreFacts.loadConfiguration_read _ _ _ He Hr).
  cbn [EMACS_INTEGRATION DEBUG VERBOSE].
  split; [| split; [| split]];
    try (intros value; apply DefineFacts.flagAfter_definedBy).
  intros name v1 v2. apply DefineFacts.definedBy_unique.
Qed.

Lemma flags_come_from_defines_witness :
  existsSync onlyEmacs = Normal true /\
  readFileSync onlyEmacs = Normal "#define EMACS_INTEGRATION 1" /\
  (let content := "#define EMACS_INTEGRATION 1" in
   let after := loadConfiguration onlyEmacs freshWindow in
   (forall value,
      EMACS_INTEGRATION after = Some value <->
      definedBy "EMACS_INTEGRATION" content value \/
      (forall v, ~ definedBy "EMACS_INTEGRATION" content v) /\
      EMACS_INTEGRATION freshWindow = Some value) /\
   (forall value,
      DEBUG after = Some value <->
      definedBy "DEBUG" content value \/
      (forall v, ~ definedBy "DEBUG" content v) /\
      DEBUG freshWindow = Some value) /\
   (forall value,
      VERBOSE after = Some value <->
      definedBy "VERBOSE" content value \/
      (forall v, ~ definedBy "VERBOSE" content v) /\
      VERBOSE freshWindow = Some value) /\
   (forall name v1 v2,
      definedBy name content v1 -> definedBy name content v2 -> v1 = v2)).
Proof.
  split; [reflexivity | split; [reflexivity |]].
  apply (flags_come_from_defines onlyEmacs freshWindow
           "#define EMACS_INTEGRATION 1"); reflexivity.
Defined.

(** X16: loading the configuration a second time changes nothing. *)
Theorem loadConfiguration_idempotent (fs : fileSystem) (w : window) :
  loadConfiguration fs (loadConfiguration fs w) = loadConfiguration fs w.
Proof.
  destruct (existsSync fs) as [[ | ] | e] eqn:He.
  - destruct (readFileSync fs) as [content | e] eqn:Hr.
    + rewrite !(ConfigMoreFacts.loadConfiguration_read _ _ _ He Hr).
      cbn [EMACS_INTEGRATION DEBUG VERBOSE].
      rewrite !ConfigMoreFacts.flagAfter_idempotent. reflexivity.
    + unfold loadConfiguration. rewrite He, Hr. reflexivity.
  - unfold loadConfiguration. rewrite He. reflexivity.
  - unfold loadConfiguration. rewrite He. reflexivity.
Qed.

(** X17: when [config.h] is read and holds no [#define] of
    EMACS_INTEGRATION, the flag stays undefined as the page starts: the
    Emacs section is not set to [block], as if the integration were off,
    and yet [checkEmacsInstallation] does not refuse the check as
    disabled. *)
Theorem missing_emacs_key_is_neither_on_nor_off (fs : fileSystem)
    (content : string) :
  existsSync fs = Normal true -> readFileSync fs = Normal content ->
  matchDefine "EMACS_INTEGRATION" content = None ->
  EMACS_INTEGRATION (loadConfiguration fs freshWindow) = None /\
  emacsSectionShown (loadConfiguration fs freshWindow) = false /\
  integrationDisabled (loadConfiguration fs freshWindow) = false.
Proof.
  intros He Hr Hm.
  rewrite (ConfigMoreFacts.loadConfiguration_read _ _ _ He Hr).
  unfold emacsSectionShown, integrationDisabled, flagAfter.
  cbn [EMACS_INTEGRATION]. rewrite Hm. repeat split.
Qed.

Lemma missing_emacs_key_is_neither_on_nor_off_witness :
  existsSync onlyDebug = Normal true /\
  readFileSync onlyDebug = Normal "#define DEBUG 1" /\
  matchDefine "EMACS_INTEGRATION" "#define DEBUG 1" = None /\
  (EMACS_INTEGRATION (loadConfiguration onlyDebug freshWindow) = None /\
   emacsSectionShown (loadConfiguration onlyDebug freshWindow) = false /\
   integrationDisabled (loadConfiguration onlyDebug freshWindow) = false).
Proof.
  split; [reflexivity | split; [reflexivity | split; [reflexivity |]]].
  apply (missing_emacs_key_is_neither_on_nor_off onlyDebug "#define DEBUG 1");
    reflexivity.
Defined.

(** X18: [updateColorControls] shows the secondary colour and its label
    together, in gradient mode only, and the custom colours and their
    label together, in custom mode only; the two groups are never shown at
    the same time. *)
Theorem color_controls_are_exclusive (mode : string) :
  let shown := updateColorControls mode in
  secondaryColor_display shown = secondaryColorLabel_display shown /\
  customColors_display shown = customColorsLabel_display shown /\
  (secondaryColor_display shown = "inline-block" <-> mode = "gradient") /\
  (customColors_display shown = "inline-block" <-> mode = "custom") /\
  ~ (secondaryColor_display shown = "inline-block" /\
     customColors_display shown = "inline-block").
Proof.
  unfold updateColorControls.
  destruct (String.eqb_spec mode "gradient") as [-> | Ng].
  - cbn. repeat split; try discriminate; auto.
    intros [_ H]. discriminate H.
  - destruct (String.eqb_spec mode "custom") as [-> | Nc].
    + cbn. repeat split; try discriminate; auto.
      intros [H _]. discriminate H.
    + cbn. repeat split; try discriminate; try contradiction.
      intros [H _]. discriminate H.
Qed.

(** ** The plot button *)

Module PlotFacts.

Lemma texts_drawGraph (argumentLimit : nat) (canvas : canvasSize)
    (ui : controls) (dataValues : list number) (labels : list string)
    (barColors : list (option string)) :
  dataValues <> [] ->
  (List.length dataValues <= argumentLimit)%nat ->
  generateColors ui (List.length dataValues) = Normal barColors ->
  texts (fst (drawGraph argumentLimit canvas ui dataValues labels))
  = (firstn (List.length dataValues) labels
     ++ [toFixed1 (Math_max dataValues); "0"])%list.
Proof.
  intros Hne Hlimit Hcolors.
  rewrite (DrawFacts.drawGraph_calls _ _ _ _ _ _ Hne Hlimit Hcolors).
  cbn [fst]. rewrite !BarFacts.texts_app.
  rewrite (BarFacts.texts_bars _ labels)
    by (intros i; apply DrawFacts.texts_barCalls).
  reflexivity.
Qed.

End PlotFacts.

(** X19: a click on the plot button, when the values are no more than
    the engine takes as arguments and the colours can be generated.  On a
    count mismatch the canvas is left with the white background alone and
    the mismatch message is shown.  Otherwise the message box is empty, the
    canvas holds the background and one rectangle per value, and every
    label typed is written, in order, before the two labels of the axis. *)
Theorem plotClick_outcome (argumentLimit : nat) (canvas : canvasSize)
    (ui : controls) (valueText labelText : string)
    (barColors : list (option string)) :
  (List.length (parseValues valueText) <= argumentLimit)%nat ->
  generateColors ui (List.length (parseValues valueText)) = Normal barColors ->
  let outcome := plotClick argumentLimit canvas ui valueText labelText in
  let ops := fst (fst outcome) in
  snd (fst outcome) = Normal tt /\
  (List.length (parseValues valueText) <> List.length (parseLabels labelText) ->
   ops = drawBackground canvas /\
   snd outcome = "Error: Number of values must match the number of labels.") /\
  (List.length (parseValues valueText) = List.length (parseLabels labelText) ->
   snd outcome = "" /\
   List.length (rectangles ops) = S (List.length (parseValues valueText)) /\
   texts ops
   = (parseLabels labelText
      ++ [toFixed1 (Math_max (parseValues valueText)); "0"])%list).
Proof.
  intros Hlimit Hcolors. cbv zeta. unfold plotClick.
  destruct (Nat.eq_dec (List.length (parseValues valueText))
                       (List.length (parseLabels labelText))) as [E | N].
  - rewrite (ParserFacts.parseInputValues_equal _ _ E).
    cbn [hasError negb dataValues labels fst snd].
    assert (Hne : parseValues valueText <> []).
    { intros H. rewrite H in E. cbn [List.length] in E.
      pose proof (ColorFacts.split_nonempty labelText) as Hs.
      unfold parseLabels in E. rewrite length_map in E. lia. }
    split; [| split; [intros H; contradiction | intros _]].
    + rewrite (DrawFacts.drawGraph_calls _ _ _ _ _ _ Hne Hlimit Hcolors).
      reflexivity.
    + split; [reflexivity | split].
      * rewrite (AgreeFacts.rectangles_drawGraph _ _ _ _ _ _ Hne Hlimit
                   Hcolors).
        cbn [List.length]. rewrite length_map, length_seq. reflexivity.
      * rewrite (PlotFacts.texts_drawGraph _ _ _ _ _ _ Hne Hlimit Hcolors).
        rewrite E, firstn_all. reflexivity.
  - rewrite (ParserFacts.parseInputValues_differ _ _ N).
    cbn [hasError negb errorResult fst snd].
    split; [reflexivity | split; [intros _ | intros H; contradiction]].
    split; reflexivity.
Qed.

Lemma plotClick_outcome_witness :
  (List.length (parseValues "3,1") <= 2)%nat /\
  generateColors blueBars (List.length (parseValues "3,1"))
  = Normal [Some "#3498db"; Some "#3498db"] /\
  (let outcome := plotClick 2 defaultCanvas blueBars "3,1" "a,b" in
   let ops := fst (fst outcome) in
   snd (fst outcome) = Normal tt /\
   (List.length (parseValues "3,1") <> List.length (parseLabels "a,b") ->
    ops = drawBackground defaultCanvas /\
    snd outcome = "Error: Number of values must match the number of labels.") /\
   (List.length (parseValues "3,1") = List.length (parseLabels "a,b") ->
    snd outcome = "" /\
    List.length (rectangles ops) = S (List.length (parseValues "3,1")) /\
    texts ops
    = (parseLabels "a,b"
       ++ [toFixed1 (Math_max (parseValues "3,1")); "0"])%list)).
Proof.
  split; [vm_compute; lia | split].
  - reflexivity.
  - apply (plotClick_outcome 2 defaultCanvas blueBars "3,1" "a,b"
             [Some "#3498db"; Some "#3498db"]);
      [vm_compute; lia | reflexivity].
Defined.

(** ** Infinite values *)

Module InfinityFacts.
Import JSFacts.

Lemma max2_PInf (y : number) : y <> NaN -> max2 PInf y = PInf.
Proof.
  destruct y; [contradiction | reflexivity ..].
Qed.

Lemma max2_not_NaN (x y : number) :
  x <> NaN -> y <> NaN -> max2 x y <> NaN.
Proof.
  intros Hx Hy. destruct x; [contradiction | ..];
    (destruct y; [contradiction | ..]); unfold max2;
    match goal with |- (if ?c then _ else _) <> _ => destruct c end;
    discriminate.
Qed.

Lemma max2_with_PInf (x : number) : x <> NaN -> max2 x PInf = PInf.
Proof.
  destruct x; [contradiction | reflexivity ..].
Qed.

Lemma fold_max2_PInf (values : list number) :
  Forall (fun v => v <> NaN) values ->
  fold_left max2 values PInf = PInf.
Proof.
  induction 1 as [ | v values Hv _ IH]; [reflexivity |].
  cbn [fold_left]. rewrite (max2_PInf v Hv). exact IH.
Qed.

Lemma fold_max2_reaches_PInf (values : list number) (start : number) :
  Forall (fun v => v <> NaN) values -> start <> NaN -> In PInf values ->
  fold_left max2 values start = PInf.
Proof.
  intros Hall. revert start.
  induction Hall as [ | v values Hv Hall IH]; intros start Hs Hin;
    [contradiction |].
  cbn [fold_left]. destruct Hin as [-> | Hin].
  - rewrite (max2_with_PInf start Hs). apply fold_max2_PInf. assumption.
  - apply IH; [apply max2_not_NaN; assumption | assumption].
Qed.

(** The greatest of numbers among which one is infinite. *)
Lemma Math_max_PInf (values : list number) :
  Forall (fun v => v <> NaN) values -> In PInf values ->
  Math_max values = PInf.
Proof.
  intros Hall Hin. unfold Math_max.
  apply fold_max2_reaches_PInf; [assumption | discriminate | assumption].
Qed.

Lemma parseValues_not_NaN (valueText : string) :
  Forall (fun v => v <> NaN) (parseValues valueText).
Proof.
  pose proof (ParserFacts.parseValues_nonnegative valueText) as H.
  apply Forall_impl with (2 := H). intros v [Hn _] ->. discriminate Hn.
Qed.

End InfinityFacts.

(** X20: one infinite value flattens the chart.  When a parsed series
    holds an infinite value, the scale of [drawGraph] is zero: every bar
    of a finite value has the height 0 and every bar of an infinite value
    has the height NaN. *)
Theorem infinite_value_flattens_chart (canvas : canvasSize)
    (valueText : string) :
  (0 <= height canvas < 2 ^ 32)%Z ->
  In PInf (parseValues valueText) ->
  drawGraph_scale canvas (parseValues valueText) = ofZ 0 /\
  forall value, In value (parseValues valueText) ->
    mul value (drawGraph_scale canvas (parseValues valueText))
    = match value with
      | Fin _ => ofZ 0
      | _ => NaN
      end.
Proof.
  intros Hh Hin.
  assert (Hs : drawGraph_scale canvas (parseValues valueText) = ofZ 0).
  { unfold drawGraph_scale.
    rewrite (InfinityFacts.Math_max_PInf _
               (InfinityFacts.parseValues_not_NaN valueText) Hin).
    change (scaleDivisor PInf) with PInf.
    unfold topPadding, bottomPadding. rewrite !JSFacts.sub_int by lia.
    reflexivity. }
  split; [assumption |].
  intros value _. rewrite Hs. destruct value as [ | | | q]; try reflexivity.
  unfold mul, ofZ. rewrite (JSFacts.round64_comp _ 0); [reflexivity |].
  change (inject_Z 0) with 0%Q. apply Qmult_0_r.
Qed.

Lemma infinite_value_flattens_chart_witness :
  (0 <= height defaultCanvas < 2 ^ 32)%Z /\
  In PInf (parseValues "10,Infinity,20") /\
  (drawGraph_scale defaultCanvas (parseValues "10,Infinity,20") = ofZ 0 /\
   forall value, In value (parseValues "10,Infinity,20") ->
     mul value (drawGraph_scale defaultCanvas (parseValues "10,Infinity,20"))
     = match value with
       | Fin _ => ofZ 0
       | _ => NaN
       end).
Proof.
  split; [vm_compute; split; [discriminate | reflexivity] |].
  split; [vm_compute; right; left; reflexivity |].
  apply (infinite_value_flattens_chart defaultCanvas "10,Infinity,20").
  - vm_compute. split; [discriminate | reflexivity].
  - vm_compute. right. left. reflexivity.
Defined.

(** X21: [openInEmacs] never shows "No data to display": its input either
    fails to parse, and the message is to fix the input errors, or holds
    at least one value, and the function goes on to check Emacs with the
    parsed values and labels. *)
Theorem openInEmacs_never_reports_no_data (valueText labelText : string) :
  openInEmacs_start valueText labelText
  <> showMessage "No data to display. Please enter some values." /\
  (List.length (parseValues valueText) <> List.length (parseLabels labelText) ->
   openInEmacs_start valueText labelText
   = showMessage "Please fix input errors before opening in Emacs.") /\
  (List.length (parseValues valueText) = List.length (parseLabels labelText) ->
   openInEmacs_start valueText labelText
   = checkAndLaunch (parseValues valueText) (parseLabels labelText)).
Proof.
  unfold openInEmacs_start.
  destruct (Nat.eq_dec (List.length (parseValues valueText))
                       (List.length (parseLabels labelText))) as [E | N].
  - rewrite (ParserFacts.parseInputValues_equal _ _ E).
    cbn [fst hasError dataValues labels].
    assert (Hpos : (1 <= List.length (parseValues valueText))%nat).
    { rewrite E. unfold parseLabels. rewrite length_map.
      apply ColorFacts.split_nonempty. }
    destruct (Nat.eqb_spec (List.length (parseValues valueText)) 0);
      [lia |].
    split; [discriminate | split; [intros H; contradiction | reflexivity]].
  - rewrite (ParserFacts.parseInputValues_differ _ _ N).
    cbn [fst hasError errorResult].
    split; [discriminate | split; [reflexivity | intros H; contradiction]].
Qed.

(** X23: [exportSVG] raises in exactly two situations, on an input that
    parses: a RangeError when the values are more than the engine takes as
    arguments (the spread at line 382), and otherwise a TypeError when the
    mode is gradient and the primary or the secondary colour is not a
    six-digit hexadecimal colour. *)
Theorem exportSVG_raises_iff (argumentLimit : nat) (ui : controls)
    (valueText labelText : string) (e : string) :
  exportSVG argumentLimit ui valueText labelText = Throw e <->
  hasError (fst (parseInputValues valueText labelText)) = false /\
  ((argumentLimit < List.length (parseValues valueText))%nat /\
   e = rangeError \/
   (List.length (parseValues valueText) <= argumentLimit)%nat /\
   e = typeError /\
   colorMode ui = "gradient" /\
   (hexToRgb (primaryColor ui) = None \/ hexToRgb (secondaryColor ui) = None)).
Proof.
  destruct (hasError (fst (parseInputValues valueText labelText))) eqn:Hok.
  - split; [| intros (H & _); discriminate H].
    intros H. exfalso.
    destruct (Nat.eq_dec (List.length (parseValues valueText))
                         (List.length (parseLabels labelText))) as [E | N].
    + rewrite (ParserFacts.parseInputValues_equal _ _ E) in Hok.
      discriminate Hok.
    + unfold exportSVG in H.
      rewrite (ParserFacts.parseInputValues_differ _ _ N) in H.
      discriminate H.
  - destruct (SvgFacts.parse_success _ _ Hok) as (_ & _ & Hpos).
    rewrite (SvgFacts.exportSVG_parsed _ _ _ _ Hok).
    destruct (Nat.le_gt_cases (List.length (parseValues valueText))
                              argumentLimit) as [Hle | Hgt].
    + rewrite (SpreadFacts.spread_within _ _ _ Hle). cbn [bind].
      destruct (generateColors ui (List.length (parseValues valueText)))
        as [barColors | e'] eqn:Hcolors; cbn [bind].
      * split; [discriminate |].
        intros (_ & [[Hgt _] | (_ & _ & Hm & Hhex)]); [lia |].
        rewrite (DrawFacts.generateColors_bad_gradient _ _ Hm Hpos Hhex)
          in Hcolors.
        discriminate Hcolors.
      * destruct (DrawFacts.generateColors_raises _ _ _ Hcolors)
          as (He & Hm & _ & Hhex).
        split.
        -- intros H. injection H as <-.
           split; [reflexivity | right; repeat split; assumption].
        -- intros (_ & [[Hgt _] | (_ & -> & _)]); [lia |].
           rewrite He. reflexivity.
    + rewrite (SpreadFacts.spread_beyond _ _ _ Hgt). cbn [bind].
      split.
      * intros H. injection H as <-.
        split; [reflexivity | left; split; [assumption | reflexivity]].
      * intros (_ & [[_ ->] | (Hle & _)]); [reflexivity | lia].
Qed.

(** ** Signed numerals and numerals followed by text *)

Module TokenFacts.
Import JSFacts.

(** [parseFloat] of a minus sign and digits is the opposite of the number
    the digits denote. *)
Lemma parseFloat_minus_digits (s : string) :
  s <> "" -> Str.forallb Str.isDigit s = true ->
  parseFloat (String "-" s) = neg (round64 (inject_Z (Str.digitsValue 0 s))).
Proof.
  intros Hne H. destruct s as [ | c r]; [contradiction |].
  pose proof (ParseFloatFacts.takeWhile_all _ _ H) as Ht.
  pose proof (ParseFloatFacts.dropWhile_all _ _ H) as Hd.
  cbn [Str.forallb] in H. apply andb_true_iff in H. destruct H as [Hc Hr].
  destruct c as [[] [] [] [] [] [] [] []]; try discriminate Hc;
    unfold parseFloat;
    match goal with
    | |- context [Str.trimStart ?x] => change (Str.trimStart x) with x
    end;
    cbv beta iota zeta;
    match goal with
    | |- context [Str.stripPrefix ?p ?x] =>
        change (Str.stripPrefix p x) with (@None string)
    end;
    cbv beta iota zeta; rewrite Ht, Hd; cbv beta iota zeta;
    rewrite ParseFloatFacts.append_empty;
    match goal with
    | |- context [Str.isEmpty ?x && Str.isEmpty ""] =>
        change (Str.isEmpty x && Str.isEmpty "") with false
    end;
    change (exponentPart "" - Z.of_nat (String.length ""))%Z with 0%Z;
    cbv beta iota; f_equal;
    apply round64_comp; change (Qpower 10 0) with 1%Q; apply Qmult_1_r.
Qed.

Lemma trim_minus_digits (s : string) :
  Str.forallb Str.isDigit s = true -> Str.trim (String "-" s) = String "-" s.
Proof.
  intros H. unfold Str.trim.
  rewrite (SplitFacts.trimStart_cons "-" s eq_refl).
  rewrite (SplitFacts.trimEnd_cons "-" s eq_refl). f_equal.
  apply ParseFloatFacts.trimEnd_no_whiteSpace.
  apply (ParseFloatFacts.forallb_impl Str.isDigit); [| assumption].
  intros c Hc. rewrite (ParseFloatFacts.digit_not_whiteSpace c Hc). reflexivity.
Qed.

(** Zero is the greater of zero and a number that is not above it. *)
Lemma clamp_negative (z : Z) :
  (0 <= z)%Z -> max2 (ofZ 0) (neg (ofZ z)) = ofZ 0.
Proof.
  intros Hz. rewrite neg_ofZ. unfold max2, ofZ, gt.
  assert (H : Qle_bool (inject_Z (- z)) (inject_Z 0) = true).
  { apply Qle_bool_iff. rewrite <- Zle_Qle. lia. }
  rewrite H. reflexivity.
Qed.

End TokenFacts.

(** X24: every negative integer is clamped to zero: a minus sign followed
    by the decimal numeral of a natural number below 2^53 parses to the
    single value 0. *)
Theorem negative_numerals_parse_to_zero (z : Z) :
  (0 <= z < 2 ^ 53)%Z ->
  parseValues (String "-" (Str.ofDigits z)) = [ofZ 0].
Proof.
  intros Hz.
  destruct (NumeralFacts.ofDigits_spec z) as (Hd & Hne & Hv); [lia |].
  unfold parseValues.
  rewrite SplitFacts.split_token.
  - cbn [map filter].
    rewrite (TokenFacts.trim_minus_digits _ Hd).
    rewrite (TokenFacts.parseFloat_minus_digits _ Hne Hd), Hv.
    rewrite JSFacts.round64_int by lia.
    rewrite JSFacts.neg_ofZ. cbn [isNaN negb ofZ map].
    fold (ofZ (- z)). rewrite <- JSFacts.neg_ofZ.
    rewrite TokenFacts.clamp_negative by lia. reflexivity.
  - cbn [commaFree Str.forallb]. cbn [Ascii.eqb Bool.eqb negb andb].
    apply (ParseFloatFacts.forallb_impl Str.isDigit);
      [apply ParseFloatFacts.digit_not_comma | assumption].
Qed.

Lemma negative_numerals_parse_to_zero_witness :
  (0 <= 5 < 2 ^ 53)%Z /\ parseValues (String "-" (Str.ofDigits 5)) = [ofZ 0].
Proof.
  split; [lia |].
  apply (negative_numerals_parse_to_zero 5). lia.
Defined.

Module SuffixFacts.
Import JSFacts.

Lemma plain_not_digit (c : ascii) :
  plainChar c = true -> Str.isDigit c = false.
Proof.
  unfold plainChar. destruct (Str.isDigit c); [discriminate | reflexivity].
Qed.

Lemma plain_not_whiteSpace (c : ascii) :
  plainChar c = true -> negb (Str.isWhiteSpace c) = true.
Proof.
  unfold plainChar. destruct (Str.isDigit c); [discriminate |].
  destruct (Str.isWhiteSpace c); [discriminate | reflexivity].
Qed.

Lemma plain_not_comma (c : ascii) :
  plainChar c = true -> negb (Ascii.eqb c ",") = true.
Proof.
  destruct c as [[] [] [] [] [] [] [] []]; intros H;
    first [reflexivity | discriminate H].
Qed.

Lemma takeWhile_app (p : ascii -> bool) (d u : string) :
  Str.forallb p d = true -> Str.forallb (fun c => negb (p c)) u = true ->
  Str.takeWhile p (d ++ u) = d /\ Str.dropWhile p (d ++ u) = u.
Proof.
  intros Hd Hu. induction d as [ | c d IH].
  - cbn [append]. destruct u as [ | c u]; [split; reflexivity |].
    cbn [Str.forallb] in Hu. apply andb_true_iff in Hu.
    destruct Hu as [Hc _]. apply negb_true_iff in Hc.
    cbn [Str.takeWhile Str.dropWhile]. rewrite Hc. split; reflexivity.
  - cbn [Str.forallb] in Hd. apply andb_true_iff in Hd.
    destruct Hd as [Hc Hd]. destruct (IH Hd) as [Ht Hr].
    cbn [append Str.takeWhile Str.dropWhile]. rewrite Hc, Ht, Hr.
    split; reflexivity.
Qed.

(** No fraction starts at a plain character. *)
Lemma fraction_none (u : string) :
  Str.forallb plainChar u = true ->
  match u with
  | String "." t =>
      (Str.takeWhile Str.isDigit t, Str.dropWhile Str.isDigit t)
  | _ => ("", u)
  end = ("", u).
Proof.
  destruct u as [ | c u]; [reflexivity |].
  cbn [Str.forallb]. intros H. apply andb_true_iff in H. destruct H as [H _].
  destruct c as [[] [] [] [] [] [] [] []];
    first [reflexivity | discriminate H].
Qed.

(** No exponent is read from plain characters. *)
Lemma exponentPart_plain (u : string) :
  Str.forallb plainChar u = true -> exponentPart u = 0%Z.
Proof.
  destruct u as [ | c u]; [reflexivity |].
  cbn [Str.forallb]. intros H. apply andb_true_iff in H. destruct H as [_ H].
  unfold exponentPart.
  destruct (Ascii.eqb c "e" || Ascii.eqb c "E"); [| reflexivity].
  destruct u as [ | c' u]; [reflexivity |].
  cbn [Str.forallb] in H. apply andb_true_iff in H. destruct H as [H _].
  destruct c' as [[] [] [] [] [] [] [] []];
    first [reflexivity | discriminate H].
Qed.

(** [parseFloat] of digits followed by plain characters is the number the
    digits denote, rounded: the text after the digits is ignored. *)
Lemma parseFloat_digits_then_text (d u : string) :
  d <> "" -> Str.forallb Str.isDigit d = true ->
  Str.forallb plainChar u = true ->
  parseFloat (d ++ u) = round64 (inject_Z (Str.digitsValue 0 d)).
Proof.
  intros Hne Hd Hu.
  assert (Hu' : Str.forallb (fun c => negb (Str.isDigit c)) u = true).
  { apply (ParseFloatFacts.forallb_impl plainChar); [| assumption].
    intros c Hc. rewrite (plain_not_digit c Hc). reflexivity. }
  destruct (takeWhile_app Str.isDigit d u Hd Hu') as [Ht Hr].
  pose proof (fraction_none u Hu) as Hf.
  pose proof (exponentPart_plain u Hu) as He.
  destruct d as [ | c r]; [contradiction |].
  cbn [Str.forallb] in Hd. apply andb_true_iff in Hd. destruct Hd as [Hc _].
  cbn [append] in *.
  destruct c as [[] [] [] [] [] [] [] []]; try discriminate Hc;
    unfold parseFloat;
    match goal with
    | |- context [Str.trimStart ?x] => change (Str.trimStart x) with x
    end;
    cbv beta iota zeta;
    match goal with
    | |- context [Str.stripPrefix ?p ?x] =>
        change (Str.stripPrefix p x) with (@None string)
    end;
    cbv beta iota zeta; rewrite Ht, Hr, Hf; cbv beta iota zeta;
    rewrite He, ParseFloatFacts.append_empty;
    match goal with
    | |- context [Str.isEmpty ?x && Str.isEmpty ""] =>
        change (Str.isEmpty x && Str.isEmpty "") with false
    end;
    change (0 - Z.of_nat (String.length ""))%Z with 0%Z;
    apply round64_comp; change (Qpower 10 0) with 1%Q; apply Qmult_1_r.
Qed.

Lemma forallb_app (p : ascii -> bool) (a b : string) :
  Str.forallb p a = true -> Str.forallb p b = true ->
  Str.forallb p (a ++ b) = true.
Proof.
  intros Ha Hb. induction a as [ | c a IH]; [assumption |].
  cbn [Str.forallb] in Ha. apply andb_true_iff in Ha. destruct Ha as [Hc Ha].
  cbn [append Str.forallb]. rewrite Hc, (IH Ha). reflexivity.
Qed.

Lemma trim_no_whiteSpace (s : string) :
  Str.forallb (fun c => negb (Str.isWhiteSpace c)) s = true ->
  Str.trim s = s.
Proof.
  intros H. unfold Str.trim, Str.trimStart.
  destruct s as [ | c r]; [reflexivity |].
  pose proof H as H2. cbn [Str.forallb] in H2.
  apply andb_true_iff in H2. destruct H2 as [Hc _].
  apply negb_true_iff in Hc.
  cbn [Str.dropWhile]. rewrite Hc.
  apply ParseFloatFacts.trimEnd_no_whiteSpace. assumption.
Qed.

End SuffixFacts.

(** X25: text after a number is ignored without any error: the decimal
    numeral of a natural number below 2^53 followed by characters that are
    no digits, no white space, no dots, no commas and no signs, such as a
    unit, parses to that number alone. *)
Theorem text_after_number_is_ignored (z : Z) (unit : string) :
  (0 <= z < 2 ^ 53)%Z -> Str.forallb plainChar unit = true ->
  parseValues (Str.ofDigits z ++ unit) = [ofZ z].
Proof.
  intros Hz Hu.
  destruct (NumeralFacts.ofDigits_spec z) as (Hd & Hne & Hv); [lia |].
  destruct (ParseFloatFacts.parse_numeral z Hz) as (_ & _ & Hm).
  unfold parseValues.
  rewrite SplitFacts.split_token.
  - cbn [map filter].
    rewrite SuffixFacts.trim_no_whiteSpace.
    + rewrite (SuffixFacts.parseFloat_digits_then_text _ _ Hne Hd Hu), Hv.
      rewrite JSFacts.round64_int by lia.
      cbn [isNaN negb ofZ map]. fold (ofZ z). rewrite Hm. reflexivity.
    + apply SuffixFacts.forallb_app.
      * apply (ParseFloatFacts.forallb_impl Str.isDigit); [| assumption].
        intros c Hc. rewrite (ParseFloatFacts.digit_not_whiteSpace c Hc).
        reflexivity.
      * apply (ParseFloatFacts.forallb_impl plainChar);
          [apply SuffixFacts.plain_not_whiteSpace | assumption].
  - apply SuffixFacts.forallb_app.
    + apply (ParseFloatFacts.forallb_impl Str.isDigit);
        [apply ParseFloatFacts.digit_not_comma | assumption].
    + apply (ParseFloatFacts.forallb_impl plainChar);
        [apply SuffixFacts.plain_not_comma | assumption].
Qed.

Lemma text_after_number_is_ignored_witness :
  (0 <= 12 < 2 ^ 53)%Z /\ Str.forallb plainChar "em" = true /\
  parseValues (Str.ofDigits 12 ++ "em") = [ofZ 12].
Proof.
  split; [lia | split; [reflexivity |]].
  apply (text_after_number_is_ignored 12 "em"); [lia | reflexivity].
Defined.
